(** * bellows.zigbee.application: the coordinator's controller application

    A shallow embedding of [ControllerApplication]
    (bellows/zigbee/application.py) and the properties of its startup
    sequence, sequence allocator, pending-request table, callback
    dispatcher and device registry. *)

From Stdlib Require Import ZArith Lia.
From stdpp Require Import base option list gmap strings.

Local Open Scope Z_scope.

(** ** Python values and exceptions *)

(** The exceptions the module raises or lets through.  [Exception] keeps
    the format string and the values formatted into it. *)
Inductive Exn :=
| AssertionError
| KeyError
| IndexError
| InvalidStateError
| Exception (msg : string) (fmt_args : list Z).

#[global] Instance Exn_eq_dec : EqDecision Exn.
Proof. solve_decision. Defined.

(** Outcome of running a piece of Python code: a value or a raised
    exception. *)
Inductive Res (A : Type) :=
| Return (a : A)
| Raise (e : Exn).
Arguments Return {A} a.
Arguments Raise {A} e.

(** ** Constants and records of bellows.types *)

(** The numeric constants of [bellows.types] that the application
    compares with, or combines into, values exchanged with the NCP.  The
    module that defines them is not part of the sources here, so every
    definition below is parametric in them. *)
Class Types := {
  COORDINATOR : Z;                          (* EmberNodeType.COORDINATOR *)
  DEVICE_LEFT : Z;                          (* EmberDeviceUpdate.DEVICE_LEFT *)
  APP_RECEIVES_SUPPORTED_ZDO_REQUESTS : Z;  (* EmberZdoConfigurationFlags *)
  APP_HANDLES_UNSUPPORTED_ZDO_REQUESTS : Z
}.

(** Identifiers that are only handed to the NCP, never inspected: the
    members of each enumeration that the application names. *)
Inductive EzspConfigId :=
| CONFIG_STACK_PROFILE
| CONFIG_SECURITY_LEVEL
| CONFIG_SUPPORTED_NETWORKS
| CONFIG_APPLICATION_ZDO_FLAGS
| CONFIG_TRUST_CENTER_ADDRESS_CACHE_SIZE
| CONFIG_PACKET_BUFFER_COUNT.

Inductive EzspPolicyId :=
| TC_KEY_REQUEST_POLICY
| APP_KEY_REQUEST_POLICY
| TRUST_CENTER_POLICY.

Inductive EzspDecisionId :=
| DENY_TC_KEY_REQUESTS
| ALLOW_APP_KEY_REQUESTS
| ALLOW_PRECONFIGURED_KEY_JOINS.

Inductive EmberOutgoingMessageType :=
| OUTGOING_DIRECT.

(** The APS frame metadata; of its fields the application reads only the
    destination endpoint and the sequence number. *)
Record ApsFrame := {
  destinationEndpoint : Z;
  sequence : Z
}.

(** Decoded command arguments, and a response of the NCP: the list of
    its deserialised fields, read by position ([v[0]], [v[1]]). *)
Definition Args := list Z.
Definition Response := list Z.

(** The commands of the NCP driver [self._ezsp] that the application
    issues. *)
Inductive EzspCall :=
| reset
| version (desired : Z)
| setConfigurationValue (config_id : EzspConfigId) (value : Z)
| networkInit
| getNetworkParameters
| getNodeId
| getEui64
| setPolicy (policy_id : EzspPolicyId) (decision_id : EzspDecisionId)
| sendUnicast (message_type : EmberOutgoingMessageType) (nwk : Z)
    (aps_frame : ApsFrame) (message_tag : Z) (data : list Byte.byte)
| permitJoining (time_s : Z).

(** The callbacks of the NCP driver, with the positional arguments that
    [ezsp_callback_handler] unpacks into the parameters of [_handle_frame],
    [_handle_frame_failure], [_handle_join] and [_handle_leave]. *)
Inductive Callback :=
| incomingMessageHandler (message_type : Z) (aps_frame : ApsFrame)
    (lqi rssi sender binding_index address_index : Z) (message : list Byte.byte)
| messageSentHandler (message_type destination : Z) (aps_frame : ApsFrame)
    (message_tag status : Z) (message : list Byte.byte)
| trustCenterJoinHandler (nwk ieee device_update join_dec parent_nwk : Z)
| otherCallback (frame_name : string).

(** ** The device object *)

Module Device.

(** Modelled from the spec: the class [bellows.zigbee.device.Device] is
    not part of the sources.  A device has a stable identity, a current
    short network address and the last-known link quality and signal
    strength; [Device(application, ieee, nwk)] creates one with no radio
    details and [radio_details] records them. *)
Record t := mk {
  _ieee : Z;
  _nwk : Z;
  lqi : option Z;
  rssi : option Z
}.

Definition new (ieee nwk : Z) : t :=
  {| _ieee := ieee; _nwk := nwk; lqi := None; rssi := None |}.

Definition radio_details (dev : t) (l r : Z) : t :=
  {| _ieee := _ieee dev; _nwk := _nwk dev; lqi := Some l; rssi := Some r |}.

End Device.

(** ** The application object, futures and effects *)

(** State of an [asyncio.Future]. *)
Inductive FutState :=
| FutPending
| FutResult (v : Args)
| FutException (e : Exn).

#[global] Instance FutState_eq_dec : EqDecision FutState.
Proof. solve_decision. Defined.

(** The attributes of a [ControllerApplication].  [_pending] maps a
    transaction id to the future registered for it, a reference into the
    store of futures.  [_nwk] and [_ieee] do not exist before [startup]
    sets them. *)
Record ControllerApplication := {
  _send_sequence : Z;
  devices : gmap Z Device.t;
  _pending : gmap Z nat;
  _nwk : option Z;
  _ieee : option Z
}.

Inductive LogLevel := DEBUG | INFO | WARNING.

(** What the application does to its collaborators, in program order. *)
Inductive Effect :=
| Log (level : LogLevel) (fmt : string)
| Call (c : EzspCall)
| AddCallback
| ListenerEvent (method_name : string) (dev : Device.t)
| CallSoonInitialize (dev : Device.t)
| HandleRequest (dev : Device.t) (aps_frame : ApsFrame)
    (tsn command_id : Z) (args : Args).

(** The application together with the store of futures, shared between
    the pending table and the suspended [request] coroutines, and the
    effects performed so far (oldest first). *)
Record World := {
  app : ControllerApplication;
  futures : list FutState;
  trace : list Effect
}.

(** ** A state and exception monad for method bodies *)

(** A method body maps the world to an outcome and the world it leaves
    behind; what was mutated before an exception is raised stays
    mutated. *)
Definition M (A : Type) : Type := World → Res A * World.

Definition ret {A} (a : A) : M A := λ w, (Return a, w).

Definition bind {A B} (m : M A) (k : A → M B) : M B :=
  λ w, match m w with
       | (Return a, w') => k a w'
       | (Raise e, w') => (Raise e, w')
       end.

Definition raise {A} (e : Exn) : M A := λ w, (Raise e, w).

#[global] Instance M_ret : MRet M := @ret.
#[global] Instance M_bind : MBind M := λ A B k m, bind m k.

(** [try: body except KeyError: handler]. *)
Definition try_except_KeyError {A} (body handler : M A) : M A :=
  λ w, match body w with
       | (Raise KeyError, w') => handler w'
       | r => r
       end.

(** [assert b]. *)
Definition assert (b : bool) : M unit :=
  if b then ret tt else raise AssertionError.

Definition get_app : M ControllerApplication := λ w, (Return (app w), w).

Definition set_app (a : ControllerApplication) : M unit :=
  λ w, (Return tt, {| app := a; futures := futures w; trace := trace w |}).

Definition emit (e : Effect) : M unit :=
  λ w, (Return tt,
        {| app := app w; futures := futures w; trace := trace w ++ [e] |}).

(** [v[k]] on a response. *)
Definition item (v : Response) (k : nat) : M Z :=
  match v !! k with
  | Some x => ret x
  | None => raise IndexError
  end.

(** Attribute assignments on the application object. *)
Definition with_send_sequence (s : Z) (a : ControllerApplication) :=
  {| _send_sequence := s; devices := devices a; _pending := _pending a;
     _nwk := _nwk a; _ieee := _ieee a |}.

Definition with_devices (d : gmap Z Device.t) (a : ControllerApplication) :=
  {| _send_sequence := _send_sequence a; devices := d; _pending := _pending a;
     _nwk := _nwk a; _ieee := _ieee a |}.

Definition with_pending (p : gmap Z nat) (a : ControllerApplication) :=
  {| _send_sequence := _send_sequence a; devices := devices a; _pending := p;
     _nwk := _nwk a; _ieee := _ieee a |}.

Definition with_nwk (n : Z) (a : ControllerApplication) :=
  {| _send_sequence := _send_sequence a; devices := devices a;
     _pending := _pending a; _nwk := Some n; _ieee := _ieee a |}.

Definition with_ieee (i : Z) (a : ControllerApplication) :=
  {| _send_sequence := _send_sequence a; devices := devices a;
     _pending := _pending a; _nwk := _nwk a; _ieee := Some i |}.

(** ** Futures *)

(** [asyncio.Future()]: a new future, pending. *)
Definition new_future : M nat :=
  λ w, (Return (length (futures w)),
        {| app := app w; futures := futures w ++ [FutPending];
           trace := trace w |}).

Definition complete (fut : nat) (s : FutState) : M unit :=
  λ w, match futures w !! fut with
       | Some FutPending =>
           (Return tt, {| app := app w; futures := <[fut := s]> (futures w);
                          trace := trace w |})
       | _ => (Raise InvalidStateError, w)
       end.

(** [fut.set_result(v)] and [fut.set_exception(e)]: a future that is
    already done refuses with [InvalidStateError]. *)
Definition set_result (fut : nat) (v : Args) : M unit :=
  complete fut (FutResult v).

Definition set_exception (fut : nat) (e : Exn) : M unit :=
  complete fut (FutException e).

(** [self._pending.pop(key)]. *)
Definition pending_pop (key : Z) : M nat :=
  a ← get_app;
  match _pending a !! key with
  | Some fut => set_app (with_pending (delete key (_pending a)) a);; mret fut
  | None => raise KeyError
  end.

(** The commands of the NCP driver issued so far. *)
Definition calls (tr : list Effect) : list EzspCall :=
  omap (λ e, match e with Call c => Some c | _ => None end) tr.

(** Modelled from the spec: [listener_event] of
    [bellows.zigbee.util.ListenableMixin] is not part of the sources.  A
    lifecycle event is delivered to the registered observers within the
    emitting call; the model records the emission. *)
Definition listener_event (method_name : string) (dev : Device.t) : M unit :=
  emit (ListenerEvent method_name dev).

(** ** The methods of ControllerApplication *)

(** [__init__] without a database file (lines 17-22). *)
Definition __init__ : World :=
  {| app := {| _send_sequence := 0; devices := ∅; _pending := ∅;
               _nwk := None; _ieee := None |};
     futures := [];
     trace := [] |}.

(** [get_sequence] (lines 191-193). *)
Definition get_sequence : M Z :=
  a ← get_app;
  set_app (with_send_sequence ((_send_sequence a + 1) mod 256) a);;
  a ← get_app;
  mret (_send_sequence a).

(** [n] consecutive calls of [get_sequence]: the ids returned, oldest
    first. *)
Fixpoint allocate (n : nat) : M (list Z) :=
  match n with
  | O => mret []
  | S n' =>
      s ← get_sequence;
      rest ← allocate n';
      mret (s :: rest)
  end.

(** [get_device] (lines 195-204).  The result is the registry entry: the
    key under which the device is stored, and the device. *)
Definition get_device (ieee nwk : option Z) : M (Z * Device.t) :=
  a ← get_app;
  match ieee with
  | Some i =>
      match devices a !! i with
      | Some dev => mret (i, dev)
      | None => raise KeyError
      end
  | None =>
      match find (λ kd, bool_decide (Some (Device._nwk kd.2) = nwk))
                 (map_to_list (devices a)) with
      | Some kd => mret kd
      | None => raise KeyError
      end
  end.

(** [add_device] (lines 90-97).  The [isinstance] assertion holds by
    typing. *)
Definition add_device (ieee nwk : Z) : M Device.t :=
  a ← get_app;
  match devices a !! ieee with
  | Some dev => mret dev
  | None =>
      let dev := Device.new ieee nwk in
      set_app (with_devices (<[ieee := dev]> (devices a)) a);;
      mret dev
  end.

(** [_handle_reply] (lines 129-134). *)
Definition _handle_reply (sender : Z) (aps_frame : ApsFrame)
    (tsn command_id : Z) (args : Args) : M unit :=
  try_except_KeyError
    (fut ← pending_pop tsn; set_result fut args)
    (emit (Log WARNING "Unexpected response TSN=%s command=%s args=%s")).

(** [_handle_request] (lines 136-143).  Modelled from the spec: the
    device's [handle_request] is the external collaborator's; the model
    records the delegation. *)
Definition _handle_request (sender : Z) (aps_frame : ApsFrame)
    (tsn command_id : Z) (args : Args) : M unit :=
  found ← try_except_KeyError
             (kd ← get_device None (Some sender); mret (Some kd))
             (emit (Log WARNING "Request on unknown device 0x%04x");;
              mret None);
  match found with
  | Some kd => emit (HandleRequest kd.2 aps_frame tsn command_id args)
  | None => mret tt
  end.

(** [_handle_join] (lines 145-154). *)
Definition _handle_join (nwk ieee device_update join_dec parent_nwk : Z)
    : M unit :=
  emit (Log INFO "Device 0x%04x (%s) joined the network");;
  a ← get_app;
  let existing :=
    match devices a !! ieee with
    | Some d => bool_decide (Device._nwk d = nwk)
    | None => false
    end in
  if existing
  then emit (Log DEBUG "Skip initialization for existing device %s")
  else
    dev ← add_device ieee nwk;
    listener_event "device_joined" dev;;
    emit (CallSoonInitialize dev).

(** [_handle_leave] (lines 156-160). *)
Definition _handle_leave (nwk ieee : Z) : M unit :=
  emit (Log INFO "Device 0x%04x (%s) left the network");;
  a ← get_app;
  match devices a !! ieee with
  | Some dev =>
      set_app (with_devices (delete ieee (devices a)) a);;
      listener_event "device_left" dev
  | None => mret tt
  end.

(** [_handle_frame_failure] (lines 162-167). *)
Definition _handle_frame_failure (message_type destination : Z)
    (aps_frame : ApsFrame) (message_tag status : Z)
    (message : list Byte.byte) : M unit :=
  try_except_KeyError
    (fut ← pending_pop message_tag;
     set_exception fut (Exception "Message send failure" []))
    (emit (Log WARNING "Unexpected message send failure")).

(** [reply] (lines 184-185) and [permit] (lines 187-189): the command is
    handed to the driver and its coroutine returned to the caller. *)
Definition reply (nwk : Z) (aps_frame : ApsFrame) (data : list Byte.byte)
    : M unit :=
  emit (Call (sendUnicast OUTGOING_DIRECT nwk aps_frame
                (sequence aps_frame) data)).

Definition permit (time_s : Z) : M unit :=
  assert (bool_decide (0 ≤ time_s ≤ 254));;
  emit (Call (permitJoining time_s)).

(** *** The request coroutine *)

(** Where a [request] coroutine (lines 169-182) stands: suspended in
    [sendUnicast] (line 176), suspended on its future (line 181), or
    finished with a value or an exception.  [seq] and [fut] are its local
    variables. *)
Inductive Coroutine :=
| AtSendUnicast (seq : Z) (fut : nat)
| AtFuture (seq : Z) (fut : nat)
| Done (r : Res Args).

(** Runs a stretch of the coroutine's body; an exception finishes it. *)
Definition stretch (m : M Coroutine) (w : World) : Coroutine * World :=
  match m w with
  | (Return c, w') => (c, w')
  | (Raise e, w') => (Done (Raise e), w')
  end.

(** Lines 171-176: from the call to the suspension in [sendUnicast]. *)
Definition request_begin (nwk : Z) (aps_frame : ApsFrame)
    (data : list Byte.byte) : M Coroutine :=
  let seq := sequence aps_frame in
  a ← get_app;
  assert (bool_decide (_pending a !! seq = None));;
  fut ← new_future;
  set_app (with_pending (<[seq := fut]> (_pending a)) a);;
  emit (Call (sendUnicast OUTGOING_DIRECT nwk aps_frame seq data));;
  mret (AtSendUnicast seq fut).

(** Line 181, [yield from fut]: the result of a future that is done,
    a suspension otherwise. *)
Definition await_future (seq : Z) (fut : nat) : M Coroutine :=
  λ w, match futures w !! fut with
       | Some (FutResult v) => (Return (Done (Return v)), w)
       | Some (FutException e) => (Raise e, w)
       | _ => (Return (AtFuture seq fut), w)
       end.

(** Lines 176-181: resumed with the response [v] of [sendUnicast]. *)
Definition request_sent (seq : Z) (fut : nat) (v : Response) : M Coroutine :=
  v0 ← item v 0;
  if bool_decide (v0 ≠ 0)
  then
    pending_pop seq;;
    raise (Exception "Message send failure %s" [v0])
  else await_future seq fut.

Section Application.

Context {types : Types}.

(** The codecs [bellows.zigbee.zdo.deserialize] and
    [bellows.zigbee.zcl.deserialize]: the transaction id, the command id,
    the reply flag and the arguments of a frame, or an exception. *)
Variable zdo_deserialize zcl_deserialize :
  ApsFrame → list Byte.byte → Res (Z * Z * bool * Args).

(** [_handle_frame] (lines 111-127). *)
Definition _handle_frame (message_type : Z) (aps_frame : ApsFrame)
    (lqi rssi sender binding_index address_index : Z)
    (message : list Byte.byte) : M unit :=
  try_except_KeyError
    (kd ← get_device None (Some sender);
     a ← get_app;
     set_app (with_devices
                (<[kd.1 := Device.radio_details kd.2 lqi rssi]> (devices a)) a))
    (emit (Log DEBUG "No such device %s"));;
  let deserialize :=
    if bool_decide (destinationEndpoint aps_frame = 0)
    then zdo_deserialize else zcl_deserialize in
  match deserialize aps_frame message with
  | Raise e => raise e
  | Return (tsn, command_id, is_reply, args) =>
      if is_reply : bool
      then _handle_reply sender aps_frame tsn command_id args
      else _handle_request sender aps_frame tsn command_id args
  end.

(** [ezsp_callback_handler] (lines 99-109). *)
Definition ezsp_callback_handler (cb : Callback) : M unit :=
  match cb with
  | incomingMessageHandler message_type aps_frame lqi rssi sender
      binding_index address_index message =>
      _handle_frame message_type aps_frame lqi rssi sender
        binding_index address_index message
  | messageSentHandler message_type destination aps_frame message_tag
      status message =>
      if bool_decide (status ≠ 0)
      then _handle_frame_failure message_type destination aps_frame
             message_tag status message
      else mret tt
  | trustCenterJoinHandler nwk ieee device_update join_dec parent_nwk =>
      if bool_decide (device_update = DEVICE_LEFT)
      then _handle_leave nwk ieee
      else _handle_join nwk ieee device_update join_dec parent_nwk
  | otherCallback _ => mret tt
  end.

(** *** The event loop *)

(** The world and the [request] coroutines started so far, each at its
    index. *)
Record Loop := {
  world : World;
  tasks : list Coroutine
}.

(** What the single-threaded event loop runs next: a caller starts a
    [request]; the driver answers the [sendUnicast] of a suspended
    coroutine; the loop wakes a coroutine whose future is done; the driver
    delivers a callback.  Completing a future does not run the coroutine
    that waits for it: asyncio schedules the wake-up as a later turn of
    the loop, so other turns may come between the two. *)
Inductive Event :=
| EvRequest (nwk : Z) (aps_frame : ApsFrame) (data : list Byte.byte)
| EvSent (task : nat) (v : Response)
| EvWakeup (task : nat)
| EvCallback (cb : Callback).

(** One turn of the loop; [None] when the event cannot happen in this
    state.  An exception that escapes a callback is the loop's to report
    and leaves the world as the callback left it. *)
Definition step (l : Loop) (ev : Event) : option Loop :=
  match ev with
  | EvRequest nwk aps_frame data =>
      let '(c, w) := stretch (request_begin nwk aps_frame data) (world l) in
      Some {| world := w; tasks := tasks l ++ [c] |}
  | EvSent task v =>
      match tasks l !! task with
      | Some (AtSendUnicast seq fut) =>
          let '(c, w) := stretch (request_sent seq fut v) (world l) in
          Some {| world := w; tasks := <[task := c]> (tasks l) |}
      | _ => None
      end
  | EvWakeup task =>
      match tasks l !! task with
      | Some (AtFuture seq fut) =>
          match stretch (await_future seq fut) (world l) with
          | (AtFuture _ _, _) => None
          | (c, w) => Some {| world := w; tasks := <[task := c]> (tasks l) |}
          end
      | _ => None
      end
  | EvCallback cb =>
      Some {| world := (ezsp_callback_handler cb (world l)).2;
              tasks := tasks l |}
  end.

Fixpoint run (l : Loop) (evs : list Event) : option Loop :=
  match evs with
  | [] => Some l
  | ev :: evs' =>
      match step l ev with
      | Some l' => run l' evs'
      | None => None
      end
  end.

End Application.

(** *** The startup sequence *)

(** The world [w] with application object [a] once the commands [cs]
    were handed to the driver. *)
Definition sent (a : ControllerApplication) (w : World)
    (cs : list EzspCall) : World :=
  {| app := a; futures := futures w; trace := trace w ++ (Call <$> cs) |}.

Section Startup.

Context {types : Types}.

(** The NCP behind the driver during startup: its response to a command,
    given the commands it was sent before (oldest first). *)
Variable ezsp : list EzspCall → EzspCall → Response.

(** [yield from self._ezsp.<command>(...)]: the command is sent and the
    coroutine resumes with the response. *)
Definition yield_from (c : EzspCall) : M Response :=
  λ w, (Return (ezsp (calls (trace w)) c),
        {| app := app w; futures := futures w;
           trace := trace w ++ [Call c] |}).

(** [_cfg] (lines 65-68). *)
Definition _cfg (config_id : EzspConfigId) (value : Z) : M unit :=
  v ← yield_from (setConfigurationValue config_id value);
  v0 ← item v 0;
  assert (bool_decide (v0 = 0)).

(** [_policy] (lines 70-88). *)
Definition _policy : M unit :=
  v ← yield_from (setPolicy TC_KEY_REQUEST_POLICY DENY_TC_KEY_REQUESTS);
  v0 ← item v 0;
  assert (bool_decide (v0 = 0));;
  v ← yield_from (setPolicy APP_KEY_REQUEST_POLICY ALLOW_APP_KEY_REQUESTS);
  v0 ← item v 0;
  assert (bool_decide (v0 = 0));;
  v ← yield_from (setPolicy TRUST_CENTER_POLICY ALLOW_PRECONFIGURED_KEY_JOINS);
  v0 ← item v 0;
  assert (bool_decide (v0 = 0)).

(** [startup] (lines 29-63). *)
Definition startup : M unit :=
  yield_from reset;;
  yield_from (version 4);;
  _cfg CONFIG_STACK_PROFILE 2;;
  _cfg CONFIG_SECURITY_LEVEL 5;;
  _cfg CONFIG_SUPPORTED_NETWORKS 1;;
  _cfg CONFIG_SUPPORTED_NETWORKS 1;;
  let zdo := Z.lor APP_RECEIVES_SUPPORTED_ZDO_REQUESTS
                   APP_HANDLES_UNSUPPORTED_ZDO_REQUESTS in
  _cfg CONFIG_APPLICATION_ZDO_FLAGS zdo;;
  _cfg CONFIG_TRUST_CENTER_ADDRESS_CACHE_SIZE 2;;
  _cfg CONFIG_PACKET_BUFFER_COUNT 255;;
  v ← yield_from networkInit;
  v0 ← item v 0;
  assert (bool_decide (v0 = 0));;
  v ← yield_from getNetworkParameters;
  v0 ← item v 0;
  assert (bool_decide (v0 = 0));;
  v1 ← item v 1;
  (if bool_decide (v1 ≠ COORDINATOR)
   then raise (Exception "Network not configured as coordinator" [])
   else mret tt);;
  _policy;;
  nwk ← yield_from getNodeId;
  nwk0 ← item nwk 0;
  a ← get_app;
  set_app (with_nwk nwk0 a);;
  ieee ← yield_from getEui64;
  ieee0 ← item ieee 0;
  a ← get_app;
  set_app (with_ieee ieee0 a);;
  emit AddCallback.

(** The commands of the startup sequence, in the order [startup] issues
    them. *)
Definition startup_calls : list EzspCall :=
  [ reset; version 4;
    setConfigurationValue CONFIG_STACK_PROFILE 2;
    setConfigurationValue CONFIG_SECURITY_LEVEL 5;
    setConfigurationValue CONFIG_SUPPORTED_NETWORKS 1;
    setConfigurationValue CONFIG_SUPPORTED_NETWORKS 1;
    setConfigurationValue CONFIG_APPLICATION_ZDO_FLAGS
      (Z.lor APP_RECEIVES_SUPPORTED_ZDO_REQUESTS
             APP_HANDLES_UNSUPPORTED_ZDO_REQUESTS);
    setConfigurationValue CONFIG_TRUST_CENTER_ADDRESS_CACHE_SIZE 2;
    setConfigurationValue CONFIG_PACKET_BUFFER_COUNT 255;
    networkInit; getNetworkParameters;
    setPolicy TC_KEY_REQUEST_POLICY DENY_TC_KEY_REQUESTS;
    setPolicy APP_KEY_REQUEST_POLICY ALLOW_APP_KEY_REQUESTS;
    setPolicy TRUST_CENTER_POLICY ALLOW_PRECONFIGURED_KEY_JOINS;
    getNodeId; getEui64 ].

(** The responses of the NCP in a run of the whole sequence from [w],
    one per command of [startup_calls]. *)
Definition responses (w : World) : list Response :=
  imap (λ k c, ezsp (calls (trace w) ++ take k startup_calls) c)
       startup_calls.

End Startup.

(** A response whose first field is the success status. *)
Definition succeeds (v : Response) : Prop := v !! 0%nat = Some 0.

#[global] Instance succeeds_dec v : Decision (succeeds v).
Proof. unfold succeeds. apply _. Defined.

(** ** Coherence of the pending table and the store of futures *)

(** Every future in the pending table is unresolved, no future is
    registered under two transaction ids, and the only exception ever
    set on a future is the send failure of [_handle_frame_failure]. *)
Record coherent (w : World) : Prop := {
  pending_unresolved :
    ∀ t f, _pending (app w) !! t = Some f → futures w !! f = Some FutPending;
  pending_injective :
    ∀ t1 t2 f, _pending (app w) !! t1 = Some f →
               _pending (app w) !! t2 = Some f → t1 = t2;
  exceptions_send_failure :
    ∀ f e, futures w !! f = Some (FutException e) →
           e = Exception "Message send failure" []
}.

(** ** Sample collaborators for concrete runs *)

Definition sample_types : Types :=
  {| COORDINATOR := 1;
     DEVICE_LEFT := 2;
     APP_RECEIVES_SUPPORTED_ZDO_REQUESTS := 1;
     APP_HANDLES_UNSUPPORTED_ZDO_REQUESTS := 2 |}.

(** A codec for frames of the shape [tsn; command id; reply flag;
    arguments...]. *)
Definition sample_deserialize (aps_frame : ApsFrame)
    (message : list Byte.byte) : Res (Z * Z * bool * Args) :=
  let z b := Z.of_N (Byte.to_N b) in
  match message with
  | tsn :: command_id :: flag :: args =>
      Return (z tsn, z command_id, bool_decide (z flag ≠ 0), z <$> args)
  | _ => Raise (Exception "Frame too short" [])
  end.

(** An NCP that answers the commands it receives from a script, in
    order. *)
Definition scripted (script : list Response)
    (history : list EzspCall) (c : EzspCall) : Response :=
  default [] (script !! length history).

(** The loop of a freshly constructed application. *)
Definition fresh_loop : Loop := {| world := __init__; tasks := [] |}.

(** A frame for endpoint 1 with transaction id 5, and the world of a
    fresh application after a [request] with that frame was started. *)
Definition sample_frame : ApsFrame :=
  {| destinationEndpoint := 1; sequence := 5 |}.

Definition sample_pending_world : World :=
  (request_begin 7 sample_frame [] __init__).2.

(** A fresh application with device 1 registered under short address
    10. *)
Definition sample_registry_world : World :=
  {| app := with_devices {[ 1 := Device.new 1 10 ]} (app __init__);
     futures := []; trace := [] |}.

(** Scripts for the sixteen commands of the startup sequence: every
    command succeeds and the role is [role]; and the same with the
    response to the command at position [k] replaced by a failure
    status. *)
Definition script_with_role (role : Z) : list Response :=
  [ [0]; [0]; [0]; [0]; [0]; [0]; [0]; [0]; [0]; [0]; [0; role];
    [0]; [0]; [0]; [0]; [1234605616436508552] ].

Definition script_failing_at (k : nat) : list Response :=
  <[k := [1]]> (script_with_role 1).

(** A run of the loop: a request with id 5 is sent and answered; before
    the loop wakes the caller, another request with id 5 is started. *)
Definition sample_reply : Callback :=
  incomingMessageHandler 0 sample_frame 255 (-40) 7 0 0
    [Byte.x05; Byte.x01; Byte.x01; Byte.x2a].

Definition sample_answered : list Event :=
  [EvRequest 7 sample_frame []; EvSent 0 [0]; EvCallback sample_reply].

Definition sample_overtaken : list Event :=
  sample_answered ++ [EvRequest 7 sample_frame []; EvWakeup 0].

(** ** The pending table seen from the event loop *)

(** The pending table and the store of futures of a world. *)
Definition table (w : World) : gmap Z nat * list FutState :=
  (_pending (app w), futures w).

(** The transaction id an event asks to register, if any. *)
Definition requested (ev : Event) : option Z :=
  match ev with
  | EvRequest _ aps_frame _ => Some (sequence aps_frame)
  | _ => None
  end.

(** An event that is not a [request] for transaction id [t]. *)
Definition not_request_for (t : Z) (ev : Event) : Prop :=
  requested ev ≠ Some t.

#[global] Instance not_request_for_dec t ev : Decision (not_request_for t ev).
Proof. unfold not_request_for. apply _. Defined.

(** What a turn of the loop can do to the table and the store: nothing; a
    registration of a new future under the free id [reg]; the removal of
    an entry; the removal of an entry together with the completion of its
    unresolved future, by a result or by the send failure. *)
Inductive table_change (reg : option Z) :
    gmap Z nat * list FutState → gmap Z nat * list FutState → Prop :=
| tc_same T :
    table_change reg T T
| tc_register p fs t :
    reg = Some t →
    p !! t = None →
    table_change reg (p, fs) (<[t := length fs]> p, fs ++ [FutPending])
| tc_remove p fs t :
    table_change reg (p, fs) (delete t p, fs)
| tc_complete p fs t f s :
    p !! t = Some f →
    fs !! f = Some FutPending →
    s ≠ FutPending →
    (∀ e, s = FutException e → e = Exception "Message send failure" []) →
    table_change reg (p, fs) (delete t p, <[f := s]> fs).

(** The future a suspended coroutine holds. *)
Definition fut_of (c : Coroutine) : option nat :=
  match c with
  | AtSendUnicast _ fut | AtFuture _ fut => Some fut
  | Done _ => None
  end.

(** The futures of the suspended coroutines are allocated, and no two
    coroutines hold the same future. *)
Record tasks_wf (l : Loop) : Prop := {
  tasks_allocated :
    ∀ k c f, tasks l !! k = Some c → fut_of c = Some f →
             (f < length (futures (world l)))%nat;
  tasks_distinct :
    ∀ k1 k2 c1 c2 f, tasks l !! k1 = Some c1 → tasks l !! k2 = Some c2 →
                     fut_of c1 = Some f → fut_of c2 = Some f → k1 = k2
}.

(** The standing of the call that runs as task [k], registered future
    [f] under transaction id [seq]: while it is suspended its entry is
    either still in the table or gone for good; once it has finished,
    the table has no entry for [seq], a returned value is the result of
    [f], and a send failure raised at line 179 left [f] unresolved and
    out of the table. *)
Definition call_standing (k : nat) (seq : Z) (f : nat) (l : Loop) : Prop :=
  let p := _pending (app (world l)) in
  let fs := futures (world l) in
  match tasks l !! k with
  | Some (AtSendUnicast s g) | Some (AtFuture s g) =>
      s = seq ∧ g = f ∧ (f < length fs)%nat ∧
      (p !! seq = Some f ∨ (p !! seq = None ∧ ∀ t, p !! t ≠ Some f))
  | Some (Done (Return v)) =>
      p !! seq = None ∧ fs !! f = Some (FutResult v)
  | Some (Done (Raise (Exception _ (_ :: _)))) =>
      p !! seq = None ∧ fs !! f = Some FutPending ∧ ∀ t, p !! t ≠ Some f
  | Some (Done (Raise (Exception _ []))) => p !! seq = None
  | Some (Done (Raise KeyError)) => p !! seq = None
  | Some (Done (Raise _)) => True
  | None => False
  end.

(** ** The registry and the session seen from the event loop *)

(** Every device of the registry is stored under its own identity. *)
Definition registry_keyed (w : World) : Prop :=
  ∀ k dev, devices (app w) !! k = Some dev → Device._ieee dev = k.

(** What the startup sequence sets and the allocator counts: the
    attributes no callback and no [request] assigns. *)
Definition session (w : World) : Z * option Z * option Z :=
  (_send_sequence (app w), _nwk (app w), _ieee (app w)).

(** The events by which callers start a [request] for each of the
    transaction ids [ids], in order, with frames for [endpoint]. *)
Definition requests_for (nwk endpoint : Z) (data : list Byte.byte)
    (ids : list Z) : list Event :=
  (λ s, EvRequest nwk {| destinationEndpoint := endpoint; sequence := s |}
          data) <$> ids.

(** What [_handle_frame] does before it decodes the frame (lines
    112-115), as the world it leaves: the radio details of the first
    device found under the sender's short address, or a log line. *)
Definition radio_recorded (w : World) (sender lqi rssi : Z) : World :=
  match find (λ kd, bool_decide (Some (Device._nwk kd.2) = Some sender))
             (map_to_list (devices (app w))) with
  | Some kd =>
      {| app := with_devices
                  (<[kd.1 := Device.radio_details kd.2 lqi rssi]>
                     (devices (app w))) (app w);
         futures := futures w; trace := trace w |}
  | None =>
      {| app := app w; futures := futures w;
         trace := trace w ++ [Log DEBUG "No such device %s"] |}
  end.


(** * Properties *)

(** ** The sequence allocator *)

Lemma get_sequence_run w :
  get_sequence w =
    (Return ((_send_sequence (app w) + 1) mod 256),
     {| app := with_send_sequence ((_send_sequence (app w) + 1) mod 256) (app w);
        futures := futures w; trace := trace w |}).
Proof. reflexivity. Qed.

(** The [k]-th of [n] consecutive allocations is the counter plus [k],
    modulo 256. *)
Lemma allocate_run n : ∀ w,
  ∃ w', allocate n w =
          (Return ((λ k, (_send_sequence (app w) + Z.of_nat k) mod 256)
                     <$> seq 1 n), w').
Proof.
  induction n as [|n IH]; intros w; [by eexists|].
  cbn [allocate]. unfold mbind, M_bind, bind at 1.
  rewrite get_sequence_run.
  destruct (IH {| app := with_send_sequence
                           ((_send_sequence (app w) + 1) mod 256) (app w);
                  futures := futures w; trace := trace w |}) as [w' Hn].
  unfold bind at 1. rewrite Hn. eexists. unfold mret, M_ret, ret. f_equal.
  f_equal. cbn [seq fmap list_fmap]. f_equal.
  rewrite <- (fmap_S_seq 1), <- list_fmap_compose.
  apply list_fmap_ext. intros _ k _. cbn [compose app with_send_sequence _send_sequence].
  rewrite Zplus_mod_idemp_l. f_equal. lia.
Qed.

Lemma offsets_mod_256_distinct (s : Z) (j k : nat) :
  (1 ≤ j ≤ 256)%nat → (1 ≤ k ≤ 256)%nat →
  (s + Z.of_nat j) mod 256 = (s + Z.of_nat k) mod 256 → j = k.
Proof.
  intros Hj Hk Heq.
  assert (Z.of_nat j = Z.of_nat k); [|lia].
  Z.div_mod_to_equations. lia.
Qed.

(** C7 (as amended): each call of [get_sequence] returns, and stores, the
    previous id plus one modulo 256; 256 consecutive allocations are
    pairwise distinct, and the 257th is again the first of them: the
    allocator wraps around without regard to the ids still pending. *)
Theorem get_sequence_wraps_around (w : World) :
  (get_sequence w).1 = Return ((_send_sequence (app w) + 1) mod 256) ∧
  _send_sequence (app (get_sequence w).2) = (_send_sequence (app w) + 1) mod 256 ∧
  ∃ ids w', allocate 257 w = (Return ids, w') ∧
            length ids = 257%nat ∧
            NoDup (take 256 ids) ∧
            ids !! 256%nat = ids !! 0%nat.
Proof.
  split; [done|]. split; [done|].
  destruct (allocate_run 257 w) as [w' Hrun].
  eexists _, w'. split; [exact Hrun|].
  set (f := λ k : nat, (_send_sequence (app w) + Z.of_nat k) mod 256).
  split; [by rewrite length_fmap, length_seq|]. split.
  - rewrite <- fmap_take, take_seq.
    apply NoDup_fmap_2_strong; [|apply NoDup_seq].
    intros j k Hj Hk. apply elem_of_seq in Hj, Hk.
    apply offsets_mod_256_distinct; lia.
  - rewrite !list_lookup_fmap, !lookup_seq_lt by lia.
    unfold f. cbn [fmap option_fmap option_map]. f_equal.
    replace (Z.of_nat (1 + 256)) with (Z.of_nat (1 + 0) + 1 * 256) by lia.
    by rewrite Z.add_assoc, Z_mod_plus_full.
Qed.

(** C7 (as stated) fails: from the initial counter the 257th allocation
    is 1, the id the first allocation returned. *)
Lemma allocation_257_repeats_the_first :
  ¬ (∀ ids w', allocate 257 __init__ = (Return ids, w') →
       ∀ (k : nat) (x : Z), (k < 256)%nat → ids !! k = Some x →
         ids !! 256%nat ≠ Some x).
Proof.
  intros H.
  assert (∃ ids w', allocate 257 __init__ = (Return ids, w') ∧
                    ids !! 0%nat = Some 1 ∧ ids !! 256%nat = Some 1)
    as (ids & w' & E & H0 & H256).
  { vm_compute. eexists _, _. split; [reflexivity|]. split; reflexivity. }
  exact (H ids w' E 0%nat 1 ltac:(lia) H0 H256).
Qed.

(** ** The device registry: join and leave *)

(** A join notification for an identity registered under the same short
    address is only logged. *)
Lemma handle_join_duplicate w nwk ieee du jd pn dev :
  devices (app w) !! ieee = Some dev → Device._nwk dev = nwk →
  _handle_join nwk ieee du jd pn w =
    (Return tt,
     {| app := app w; futures := futures w;
        trace := trace w ++
          [Log INFO "Device 0x%04x (%s) joined the network";
           Log DEBUG "Skip initialization for existing device %s"] |}).
Proof.
  intros Hdev Hnwk. unfold _handle_join, mbind, M_bind, bind, emit, get_app.
  cbn. rewrite Hdev, bool_decide_eq_true_2 by done.
  cbn. by rewrite <- app_assoc.
Qed.

(** A join notification for an unknown identity registers a new device
    and announces it. *)
Lemma handle_join_new w nwk ieee du jd pn :
  devices (app w) !! ieee = None →
  _handle_join nwk ieee du jd pn w =
    (Return tt,
     {| app := with_devices (<[ieee := Device.new ieee nwk]> (devices (app w)))
                 (app w);
        futures := futures w;
        trace := trace w ++
          [Log INFO "Device 0x%04x (%s) joined the network";
           ListenerEvent "device_joined" (Device.new ieee nwk);
           CallSoonInitialize (Device.new ieee nwk)] |}).
Proof.
  intros Hdev.
  unfold _handle_join, add_device, listener_event, mbind, M_bind, bind, emit,
    get_app, set_app, mret, M_ret, ret.
  cbn. rewrite Hdev. cbn. rewrite Hdev. cbn. by rewrite <- !app_assoc.
Qed.

(** A join notification for an identity registered under another short
    address announces the registered device and leaves the registry as it
    was: [add_device] returns the existing entry. *)
Lemma handle_join_changed_address w nwk ieee du jd pn dev :
  devices (app w) !! ieee = Some dev → Device._nwk dev ≠ nwk →
  _handle_join nwk ieee du jd pn w =
    (Return tt,
     {| app := app w; futures := futures w;
        trace := trace w ++
          [Log INFO "Device 0x%04x (%s) joined the network";
           ListenerEvent "device_joined" dev;
           CallSoonInitialize dev] |}).
Proof.
  intros Hdev Hnwk.
  unfold _handle_join, add_device, listener_event, mbind, M_bind, bind, emit,
    get_app, set_app, mret, M_ret, ret.
  cbn. rewrite Hdev, bool_decide_eq_false_2 by done.
  cbn. rewrite Hdev. cbn. by rewrite <- !app_assoc.
Qed.

(** C1: the code at the failing input.  Device 1 is registered under
    short address 10 and a join notification reports it under 20: the
    event is emitted, and the registered device keeps short address 10. *)
Theorem rejoin_keeps_the_old_short_address :
  let w := {| app := with_devices {[ 1 := Device.new 1 10 ]} (app __init__);
              futures := []; trace := [] |} in
  ∃ w', _handle_join 20 1 0 0 0 w = (Return tt, w') ∧
        Device._nwk <$> devices (app w') !! 1 = Some 10 ∧
        trace w' = [Log INFO "Device 0x%04x (%s) joined the network";
                    ListenerEvent "device_joined" (Device.new 1 10);
                    CallSoonInitialize (Device.new 1 10)].
Proof.
  intros w. eexists. split.
  - apply (handle_join_changed_address w 20 1 0 0 0 (Device.new 1 10));
      [reflexivity | discriminate].
  - split; reflexivity.
Qed.

Lemma get_device_by_nwk_found w n kd w' :
  get_device None (Some n) w = (Return kd, w') →
  devices (app w) !! kd.1 = Some kd.2 ∧ Device._nwk kd.2 = n.
Proof.
  unfold get_device, mbind, M_bind, bind, get_app. cbn.
  destruct (find _ _) as [kd'|] eqn:Hfind; cbn; [|discriminate].
  intros [= ->]. apply find_some in Hfind as [Hin Hnwk].
  apply list_elem_of_In in Hin. destruct kd as [k d].
  apply elem_of_map_to_list in Hin. apply bool_decide_eq_true in Hnwk.
  cbn in *. split; congruence.
Qed.

(** C8: a leave notification for a registered identity removes the
    entry, so that afterwards lookup by that identity raises [KeyError]
    and lookup by any short address returns some other, still registered
    entry, and emits exactly one [device_left] event carrying the removed
    device; for an unregistered identity it changes nothing, emits no
    event and raises nothing (only the log line is written). *)
Theorem handle_leave_removes_and_notifies (w : World) (nwk i : Z) :
  (∀ dev, devices (app w) !! i = Some dev →
     ∃ w', _handle_leave nwk i w = (Return tt, w') ∧
           app w' = with_devices (delete i (devices (app w))) (app w) ∧
           futures w' = futures w ∧
           trace w' = trace w ++
             [Log INFO "Device 0x%04x (%s) left the network";
              ListenerEvent "device_left" dev] ∧
           (get_device (Some i) None w').1 = Raise KeyError ∧
           (∀ n kd, (get_device None (Some n) w').1 = Return kd →
                    kd.1 ≠ i ∧ devices (app w) !! kd.1 = Some kd.2)) ∧
  (devices (app w) !! i = None →
     _handle_leave nwk i w =
       (Return tt,
        {| app := app w; futures := futures w;
           trace := trace w ++
             [Log INFO "Device 0x%04x (%s) left the network"] |})).
Proof.
  split.
  - intros dev Hdev. eexists. split; [|split; [|split; [|split; [|split]]]].
    + unfold _handle_leave, listener_event, mbind, M_bind, bind, emit,
        get_app, set_app. cbn. rewrite Hdev. cbn. reflexivity.
    + reflexivity.
    + reflexivity.
    + cbn. by rewrite <- app_assoc.
    + unfold get_device, mbind, M_bind, bind, get_app. cbn.
      by rewrite lookup_delete_eq.
    + intros n kd Hget.
      destruct (get_device None (Some n) _) as [r w''] eqn:Hrun.
      cbn in Hget. subst r.
      apply get_device_by_nwk_found in Hrun as [Hlook _]. cbn in Hlook.
      destruct (decide (kd.1 = i)) as [Heq|Hne].
      * by rewrite Heq, lookup_delete_eq in Hlook.
      * by rewrite lookup_delete_ne in Hlook.
  - intros Hdev.
    unfold _handle_leave, mbind, M_bind, bind, emit, get_app. cbn.
    by rewrite Hdev.
Qed.

(** ** The pending table *)

Lemma pending_pop_present w key fut :
  _pending (app w) !! key = Some fut →
  pending_pop key w =
    (Return fut,
     {| app := with_pending (delete key (_pending (app w))) (app w);
        futures := futures w; trace := trace w |}).
Proof.
  intros Hkey. unfold pending_pop, mbind, M_bind, bind, get_app. cbn.
  by rewrite Hkey.
Qed.

Lemma pending_pop_absent w key :
  _pending (app w) !! key = None → pending_pop key w = (Raise KeyError, w).
Proof.
  intros Hkey. unfold pending_pop, mbind, M_bind, bind, get_app. cbn.
  by rewrite Hkey.
Qed.

Lemma complete_unresolved w fut s :
  futures w !! fut = Some FutPending →
  complete fut s w =
    (Return tt,
     {| app := app w; futures := <[fut := s]> (futures w);
        trace := trace w |}).
Proof. intros Hfut. unfold complete. by rewrite Hfut. Qed.

Lemma complete_refused w fut s :
  futures w !! fut ≠ Some FutPending →
  complete fut s w = (Raise InvalidStateError, w).
Proof.
  intros Hfut. unfold complete.
  destruct (futures w !! fut) as [[]|]; done.
Qed.

(** Popping the entry of [key] and completing its future, the common
    body of [_handle_reply] and [_handle_frame_failure]. *)
Lemma pop_and_complete_present w key fut s :
  _pending (app w) !! key = Some fut →
  futures w !! fut = Some FutPending →
  (pending_pop key ≫= λ fut, complete fut s) w =
    (Return tt,
     {| app := with_pending (delete key (_pending (app w))) (app w);
        futures := <[fut := s]> (futures w); trace := trace w |}).
Proof.
  intros Hkey Hfut. unfold mbind, M_bind, bind.
  rewrite (pending_pop_present _ _ _ Hkey).
  by rewrite complete_unresolved.
Qed.

(** C3: a reply with transaction id [tsn] whose entry is in the table
    (with its future unresolved, as [coherent] guarantees) removes
    exactly that entry and resolves its future with the decoded
    arguments; every other entry and every other future is unchanged.  A
    reply with an id that is not in the table is logged and changes
    neither the table nor any future. *)
Theorem handle_reply_resolves_exactly_its_entry
    (w : World) (sender : Z) (aps_frame : ApsFrame) (tsn command_id : Z)
    (args : Args) :
  (∀ fut, _pending (app w) !! tsn = Some fut →
          futures w !! fut = Some FutPending →
     ∃ w', _handle_reply sender aps_frame tsn command_id args w
             = (Return tt, w') ∧
           _pending (app w') !! tsn = None ∧
           futures w' !! fut = Some (FutResult args) ∧
           (∀ t, t ≠ tsn → _pending (app w') !! t = _pending (app w) !! t) ∧
           (∀ g, g ≠ fut → futures w' !! g = futures w !! g) ∧
           devices (app w') = devices (app w) ∧
           trace w' = trace w) ∧
  (_pending (app w) !! tsn = None →
     _handle_reply sender aps_frame tsn command_id args w =
       (Return tt,
        {| app := app w; futures := futures w;
           trace := trace w ++
             [Log WARNING
                "Unexpected response TSN=%s command=%s args=%s"] |})).
Proof.
  split.
  - intros fut Hkey Hfut. eexists. split.
    + unfold _handle_reply, try_except_KeyError, set_result.
      by rewrite (pop_and_complete_present _ _ _ _ Hkey Hfut).
    + cbn. split; [apply lookup_delete_eq|].
      split; [apply list_lookup_insert_eq; by eapply lookup_lt_Some|].
      split; [intros t Ht; by apply lookup_delete_ne|].
      split; [intros g Hg; by apply list_lookup_insert_ne|done].
  - intros Hkey. unfold _handle_reply, try_except_KeyError, mbind, M_bind, bind.
    by rewrite (pending_pop_absent _ _ Hkey).
Qed.

(** C9: [request] registers its future under the [sequence] field of the
    frame it is given and passes that same value to [sendUnicast] as the
    message tag; no stretch of the coroutine touches the allocator's
    counter. *)
Theorem request_uses_the_frame_sequence
    (w : World) (nwk : Z) (aps_frame : ApsFrame) (data : list Byte.byte) :
  (_pending (app w) !! sequence aps_frame = None →
     ∃ w', request_begin nwk aps_frame data w =
             (Return (AtSendUnicast (sequence aps_frame) (length (futures w))),
              w') ∧
           _pending (app w') =
             <[sequence aps_frame := length (futures w)]> (_pending (app w)) ∧
           trace w' = trace w ++
             [Call (sendUnicast OUTGOING_DIRECT nwk aps_frame
                      (sequence aps_frame) data)]) ∧
  _send_sequence (app (request_begin nwk aps_frame data w).2)
    = _send_sequence (app w) ∧
  (∀ seq fut v,
     _send_sequence (app (request_sent seq fut v w).2)
       = _send_sequence (app w)) ∧
  (∀ seq fut, (await_future seq fut w).2 = w).
Proof.
  split; [|split; [|split]].
  - intros Hkey. eexists. split.
    + unfold request_begin, assert, new_future, mbind, M_bind, bind, emit,
        get_app, set_app, mret, M_ret, ret. cbn.
      rewrite bool_decide_eq_true_2 by done. cbn. reflexivity.
    + done.
  - unfold request_begin, assert, new_future, mbind, M_bind, bind, emit,
      get_app, set_app, mret, M_ret, ret, raise. cbn.
    by destruct (bool_decide _).
  - intros seq fut v.
    unfold request_sent, item, await_future, pending_pop, mbind, M_bind,
      bind, get_app, set_app, mret, M_ret, ret, raise. cbn.
    destruct (v !! 0%nat) as [v0|]; cbn; [|done].
    destruct (bool_decide (v0 ≠ 0)); cbn.
    + by destruct (_pending (app w) !! seq).
    + by destruct (futures w !! fut) as [[]|].
  - intros seq fut. unfold await_future.
    by destruct (futures w !! fut) as [[]|].
Qed.

(** ** The event loop: what a turn does to the pending table *)

(** Unfolds the monad and the primitive operations of a method body. *)
Ltac unfold_m :=
  unfold listener_event, add_device, get_device, pending_pop, assert, item,
    new_future, mbind, M_bind, bind, try_except_KeyError, emit, get_app,
    set_app, mret, M_ret, ret, raise in *.

Lemma handle_join_keeps_table nwk ieee du jd pn w :
  table (_handle_join nwk ieee du jd pn w).2 = table w.
Proof.
  unfold _handle_join. unfold_m. cbn.
  repeat (case_match; simplify_eq/=; try done).
Qed.

Lemma handle_leave_keeps_table nwk ieee w :
  table (_handle_leave nwk ieee w).2 = table w.
Proof.
  unfold _handle_leave. unfold_m. cbn.
  repeat (case_match; simplify_eq/=; try done).
Qed.

Lemma handle_request_keeps_table sender aps_frame tsn command_id args w :
  table (_handle_request sender aps_frame tsn command_id args w).2 = table w.
Proof.
  unfold _handle_request. unfold_m. cbn.
  repeat (case_match; simplify_eq/=; try done).
Qed.

(** The body shared by [_handle_reply] and [_handle_frame_failure]. *)
Lemma pop_and_complete_table_change key s log w :
  s ≠ FutPending →
  (∀ e, s = FutException e → e = Exception "Message send failure" []) →
  table_change None (table w)
    (table (try_except_KeyError
              (pending_pop key ≫= λ fut, complete fut s) (emit log) w).2).
Proof.
  intros Hs He. unfold try_except_KeyError, mbind, M_bind, bind.
  destruct (_pending (app w) !! key) as [fut|] eqn:Hkey.
  - rewrite (pending_pop_present _ _ _ Hkey).
    destruct (decide (futures w !! fut = Some FutPending)) as [Hfut|Hfut].
    + rewrite complete_unresolved by done. cbn.
      by apply (tc_complete _ _ _ key fut).
    + rewrite complete_refused by done. apply tc_remove.
  - rewrite (pending_pop_absent _ _ Hkey). apply tc_same.
Qed.

Lemma handle_reply_table_change sender aps_frame tsn command_id args w :
  table_change None (table w)
    (table (_handle_reply sender aps_frame tsn command_id args w).2).
Proof. by apply pop_and_complete_table_change. Qed.

Lemma handle_frame_failure_table_change mt dest aps_frame tag status msg w :
  table_change None (table w)
    (table (_handle_frame_failure mt dest aps_frame tag status msg w).2).
Proof.
  apply pop_and_complete_table_change; [done|]. by intros e [= <-].
Qed.

Section LoopProperties.

Context {types : Types}.
Variable zdo_deserialize zcl_deserialize :
  ApsFrame → list Byte.byte → Res (Z * Z * bool * Args).

Local Abbreviation handle_frame :=
  (_handle_frame zdo_deserialize zcl_deserialize).
Local Abbreviation callback_handler :=
  (ezsp_callback_handler zdo_deserialize zcl_deserialize).
Local Abbreviation loop_step := (step zdo_deserialize zcl_deserialize).
Local Abbreviation loop_run := (run zdo_deserialize zcl_deserialize).

Lemma handle_frame_table_change mt aps_frame lqi rssi sender bi ai msg w :
  table_change None (table w)
    (table (handle_frame mt aps_frame lqi rssi sender bi ai msg w).2).
Proof.
  unfold _handle_frame.
  set (radio := try_except_KeyError _ _).
  assert (table (radio w).2 = table w) as Hradio.
  { subst radio. unfold_m. cbn. repeat (case_match; simplify_eq/=; try done). }
  unfold mbind, M_bind, bind at 1.
  destruct (radio w) as [[[]|e] w1]; cbn in Hradio; rewrite <- Hradio.
  - destruct (if bool_decide _ then _ else _) as [[[[tsn cmd] [|]] args]|e];
      cbn.
    + apply handle_reply_table_change.
    + rewrite handle_request_keeps_table. apply tc_same.
    + apply tc_same.
  - apply tc_same.
Qed.

Lemma callback_table_change cb w :
  table_change None (table w) (table (callback_handler cb w).2).
Proof.
  destruct cb; cbn.
  - apply handle_frame_table_change.
  - case_bool_decide; [apply handle_frame_failure_table_change|apply tc_same].
  - case_bool_decide.
    + rewrite handle_leave_keeps_table. apply tc_same.
    + rewrite handle_join_keeps_table. apply tc_same.
  - apply tc_same.
Qed.

(** The three stretches of the [request] coroutine, case by case. *)
Lemma request_begin_stretch nwk aps_frame data w :
  stretch (request_begin nwk aps_frame data) w =
    match _pending (app w) !! sequence aps_frame with
    | Some _ => (Done (Raise AssertionError), w)
    | None =>
        (AtSendUnicast (sequence aps_frame) (length (futures w)),
         {| app := with_pending
                     (<[sequence aps_frame := length (futures w)]>
                        (_pending (app w))) (app w);
            futures := futures w ++ [FutPending];
            trace := trace w ++
              [Call (sendUnicast OUTGOING_DIRECT nwk aps_frame
                       (sequence aps_frame) data)] |})
    end.
Proof.
  unfold stretch, request_begin. unfold_m. cbn.
  by destruct (_pending (app w) !! sequence aps_frame).
Qed.

Lemma await_future_stretch seq fut w :
  stretch (await_future seq fut) w =
    (match futures w !! fut with
     | Some (FutResult v) => Done (Return v)
     | Some (FutException e) => Done (Raise e)
     | _ => AtFuture seq fut
     end, w).
Proof.
  unfold stretch, await_future. by destruct (futures w !! fut) as [[]|].
Qed.

Lemma request_sent_stretch seq fut v w :
  stretch (request_sent seq fut v) w =
    match v !! 0%nat with
    | None => (Done (Raise IndexError), w)
    | Some v0 =>
        if bool_decide (v0 ≠ 0)
        then match _pending (app w) !! seq with
             | Some _ =>
                 (Done (Raise (Exception "Message send failure %s" [v0])),
                  {| app := with_pending (delete seq (_pending (app w)))
                              (app w);
                     futures := futures w; trace := trace w |})
             | None => (Done (Raise KeyError), w)
             end
        else stretch (await_future seq fut) w
    end.
Proof.
  unfold request_sent, item. destruct (v !! 0%nat) as [v0|]; [|done].
  unfold stretch at 1, mbind, M_bind, bind at 1, ret.
  case_bool_decide; [|done].
  unfold bind. destruct (_pending (app w) !! seq) as [g|] eqn:Hkey.
  - by rewrite (pending_pop_present _ _ _ Hkey).
  - by rewrite (pending_pop_absent _ _ Hkey).
Qed.

Lemma step_table_change l ev l' :
  loop_step l ev = Some l' →
  table_change (requested ev) (table (world l)) (table (world l')).
Proof.
  destruct ev as [nwk aps_frame data|task v|task|cb]; cbn.
  - rewrite request_begin_stretch.
    destruct (_pending (app (world l)) !! sequence aps_frame) eqn:Hkey;
      intros [= <-]; cbn; [apply tc_same|by apply tc_register].
  - destruct (tasks l !! task) as [[seq fut|seq fut|r]|]; try done.
    rewrite request_sent_stretch, await_future_stretch.
    destruct (v !! 0%nat) as [v0|]; [|intros [= <-]; apply tc_same].
    case_bool_decide; [|intros [= <-]; apply tc_same].
    destruct (_pending (app (world l)) !! seq);
      intros [= <-]; [apply tc_remove|apply tc_same].
  - destruct (tasks l !! task) as [[seq fut|seq fut|r]|]; try done.
    rewrite await_future_stretch.
    destruct (futures (world l) !! fut) as [[]|]; try done;
      intros [= <-]; apply tc_same.
  - intros [= <-]. apply callback_table_change.
Qed.

(** Coherence depends on the table and the store only, and every change
    a turn can make to them keeps it. *)
Lemma table_change_coherent reg w w' :
  coherent w → table_change reg (table w) (table w') → coherent w'.
Proof.
  intros [Hunres Hinj Hexn]. unfold table.
  destruct w as [[ss dv p n i] fs tr], w' as [[ss' dv' p' n' i'] fs' tr'].
  cbn in *.
  inversion 1 as [T HT|p0 fs0 t Hreg Hfree|p0 fs0 t
                  |p0 fs0 t f s Hkey Hfut Hs He];
    subst; split; cbn; try done.
  - intros t' f [[-> <-]|[Hne Hkey]]%lookup_insert_Some.
    + by apply list_lookup_middle.
    + apply lookup_app_l_Some. by eapply Hunres.
  - intros t1 t2 f.
    intros [[<- <-]|[Hne1 Hk1]]%lookup_insert_Some
           [[<- Hf]|[Hne2 Hk2]]%lookup_insert_Some; try done.
    + apply Hunres, lookup_lt_Some in Hk2. lia.
    + apply Hunres, lookup_lt_Some in Hk1. lia.
    + by eapply Hinj.
  - intros f e [Hf|[_ [_ Hf]%list_lookup_singleton_Some]]%lookup_app_Some;
      [by eapply Hexn|done].
  - intros t' f [Hne Hkey]%lookup_delete_Some. by eapply Hunres.
  - intros t1 t2 f [_ Hk1]%lookup_delete_Some
      [_ Hk2]%lookup_delete_Some. by eapply Hinj.
  - intros t' g [Hne Hk]%lookup_delete_Some.
    rewrite list_lookup_insert_ne; [by eapply Hunres|].
    intros <-. by specialize (Hinj _ _ _ Hkey Hk).
  - intros t1 t2 g [_ Hk1]%lookup_delete_Some
      [_ Hk2]%lookup_delete_Some. by eapply Hinj.
  - intros g e Hg. destruct (decide (g = f)) as [->|Hne].
    + rewrite list_lookup_insert_eq in Hg by by eapply lookup_lt_Some.
      apply He. congruence.
    + rewrite list_lookup_insert_ne in Hg by done. by eapply Hexn.
Qed.

Lemma init_coherent : coherent __init__.
Proof. split; cbn; intros *; by rewrite ?lookup_empty. Qed.

Lemma step_coherent l ev l' :
  coherent (world l) → loop_step l ev = Some l' → coherent (world l').
Proof.
  intros Hl Hstep. eapply table_change_coherent; [done|].
  by eapply step_table_change.
Qed.

(** Every state of the loop that a run reaches from a coherent one is
    coherent; in particular every state reached from a fresh
    application. *)
Lemma run_coherent evs : ∀ l l',
  coherent (world l) → loop_run l evs = Some l' → coherent (world l').
Proof.
  induction evs as [|ev evs IH]; intros l l' Hl; cbn.
  - by intros [= <-].
  - destruct (loop_step l ev) as [l1|] eqn:Hstep; [|done].
    apply IH. by eapply step_coherent.
Qed.

Lemma table_change_length reg T T' :
  table_change reg T T' → (length T.2 ≤ length T'.2)%nat.
Proof.
  destruct 1; cbn; rewrite ?length_app, ?length_insert; cbn; lia.
Qed.

(** A coroutine that is resumed keeps the future it holds, if it still
    holds one. *)
Lemma request_sent_fut seq fut v w f :
  fut_of (stretch (request_sent seq fut v) w).1 = Some f → f = fut.
Proof.
  rewrite request_sent_stretch, await_future_stretch.
  repeat (case_match; simplify_eq/=; try done); congruence.
Qed.

Lemma await_future_fut seq fut w f :
  fut_of (stretch (await_future seq fut) w).1 = Some f → f = fut.
Proof.
  rewrite await_future_stretch.
  repeat (case_match; simplify_eq/=; try done); congruence.
Qed.

Lemma tasks_wf_resume l k c c' w' :
  tasks_wf l →
  tasks l !! k = Some c →
  (∀ f, fut_of c' = Some f → fut_of c = Some f) →
  (length (futures (world l)) ≤ length (futures w'))%nat →
  tasks_wf {| world := w'; tasks := <[k := c']> (tasks l) |}.
Proof.
  intros [Halloc Hdist] Hk Hfut Hlen.
  assert (∀ j d f, <[k := c']> (tasks l) !! j = Some d → fut_of d = Some f →
                   ∃ d0, tasks l !! j = Some d0 ∧ fut_of d0 = Some f)
    as Hold.
  { intros j d f Hj Hf. destruct (decide (j = k)) as [->|Hne].
    - rewrite list_lookup_insert_eq in Hj by by eapply lookup_lt_Some.
      simplify_eq. eauto.
    - rewrite list_lookup_insert_ne in Hj by done. eauto. }
  split; cbn.
  - intros j d f Hj Hf. destruct (Hold _ _ _ Hj Hf) as (d0 & Hj0 & Hf0).
    specialize (Halloc _ _ _ Hj0 Hf0). lia.
  - intros j1 j2 d1 d2 f Hj1 Hj2 Hf1 Hf2.
    destruct (Hold _ _ _ Hj1 Hf1) as (? & ? & ?).
    destruct (Hold _ _ _ Hj2 Hf2) as (? & ? & ?). by eapply Hdist.
Qed.

Lemma step_tasks_wf l ev l' :
  tasks_wf l → loop_step l ev = Some l' → tasks_wf l'.
Proof.
  intros Hwf Hstep. pose proof (step_table_change _ _ _ Hstep) as Hchange.
  apply table_change_length in Hchange. cbn in Hchange.
  destruct ev as [nwk aps_frame data|task v|task|cb]; cbn in Hstep.
  - destruct Hwf as [Halloc Hdist].
    destruct (stretch _ _) as [c w'] eqn:Hrun. simplify_eq. cbn in *.
    rewrite request_begin_stretch in Hrun.
    assert (∀ f, fut_of c = Some f → f = length (futures (world l)) ∧
                 (f < length (futures w'))%nat) as Hnew.
    { intros f Hf. destruct (_pending _ !! _); simplify_eq/=.
      split; [done|]. rewrite length_app. cbn. lia. }
    split; cbn.
    + intros k d f [Hk|[Hle Hk]]%lookup_app_Some Hf.
      * specialize (Halloc _ _ _ Hk Hf). lia.
      * apply list_lookup_singleton_Some in Hk as [_ <-]. by apply Hnew.
    + intros k1 k2 d1 d2 f [Hk1|[Hl1 Hk1]]%lookup_app_Some
        [Hk2|[Hl2 Hk2]]%lookup_app_Some Hf1 Hf2.
      * by eapply Hdist.
      * apply list_lookup_singleton_Some in Hk2 as [_ <-].
        apply Hnew in Hf2 as [-> _].
        specialize (Halloc _ _ _ Hk1 Hf1). lia.
      * apply list_lookup_singleton_Some in Hk1 as [_ <-].
        apply Hnew in Hf1 as [-> _].
        specialize (Halloc _ _ _ Hk2 Hf2). lia.
      * apply list_lookup_singleton_Some in Hk1 as [? _].
        apply list_lookup_singleton_Some in Hk2 as [? _]. lia.
  - destruct (tasks l !! task) as [[seq fut|seq fut|r]|] eqn:Hk; try done.
    destruct (stretch _ _) as [c w'] eqn:Hrun. simplify_eq. cbn in *.
    eapply tasks_wf_resume; [done..| |done].
    intros f Hf. replace c with (c, w').1 in Hf by done. rewrite <- Hrun in Hf.
    apply request_sent_fut in Hf. by subst.
  - destruct (tasks l !! task) as [[seq fut|seq fut|r]|] eqn:Hk; try done.
    destruct (stretch _ _) as [c w'] eqn:Hrun.
    assert (∀ f, fut_of c = Some f → fut_of (AtFuture seq fut) = Some f).
    { intros f Hf. replace c with (c, w').1 in Hf by done.
      rewrite <- Hrun in Hf. apply await_future_fut in Hf. by subst. }
    destruct c; simplify_eq; cbn in *; by eapply tasks_wf_resume.
  - simplify_eq. destruct Hwf as [Halloc Hdist]. split; cbn in *.
    + intros k d f Hk Hf. specialize (Halloc _ _ _ Hk Hf). lia.
    + done.
Qed.

Lemma run_tasks_wf evs : ∀ l l',
  tasks_wf l → loop_run l evs = Some l' → tasks_wf l'.
Proof.
  induction evs as [|ev evs IH]; intros l l' Hl; cbn.
  - by intros [= <-].
  - destruct (loop_step l ev) as [l1|] eqn:Hstep; [|done].
    apply IH. by eapply step_tasks_wf.
Qed.

Lemma fresh_loop_tasks_wf : tasks_wf fresh_loop.
Proof. split; cbn; intros *; by rewrite ?lookup_nil. Qed.

(** *** The standing of one call along a run *)

(** Whether the entry of a call is still in the table, or gone for good,
    survives the removal of any entry and the registration of a new
    future under another id. *)
Lemma entry_standing_delete (p : gmap Z nat) seq f t :
  (∀ t1 t2 g, p !! t1 = Some g → p !! t2 = Some g → t1 = t2) →
  p !! seq = Some f ∨ (p !! seq = None ∧ ∀ t', p !! t' ≠ Some f) →
  delete t p !! seq = Some f ∨
  (delete t p !! seq = None ∧ ∀ t', delete t p !! t' ≠ Some f).
Proof.
  intros Hinj [Hin|[Hout Hnever]].
  - destruct (decide (t = seq)) as [->|Hne].
    + right. split; [apply lookup_delete_eq|].
      intros t' [Hne Ht']%lookup_delete_Some. by specialize (Hinj _ _ _ Hin Ht').
    + left. by rewrite lookup_delete_ne.
  - right. split; [apply lookup_delete_None; by right|].
    intros t' [_ Ht']%lookup_delete_Some. by eapply Hnever.
Qed.

Lemma entry_standing_insert (p : gmap Z nat) seq f t g :
  t ≠ seq → g ≠ f →
  p !! seq = Some f ∨ (p !! seq = None ∧ ∀ t', p !! t' ≠ Some f) →
  <[t := g]> p !! seq = Some f ∨
  (<[t := g]> p !! seq = None ∧ ∀ t', <[t := g]> p !! t' ≠ Some f).
Proof.
  intros Ht Hg [Hin|[Hout Hnever]]; rewrite lookup_insert_ne by done;
    [by left|right]. split; [done|].
  intros t' [[_ ?]|[_ Ht']]%lookup_insert_Some; [done|by eapply Hnever].
Qed.

Lemma call_standing_is_task k seq f l :
  call_standing k seq f l → is_Some (tasks l !! k).
Proof. unfold call_standing. by destruct (tasks l !! k). Qed.

(** A turn that leaves task [k] alone and registers nothing under [seq]
    keeps the standing of the call. *)
Lemma call_standing_frame k seq f l l' reg :
  coherent (world l) →
  call_standing k seq f l →
  tasks l' !! k = tasks l !! k →
  table_change reg (table (world l)) (table (world l')) →
  reg ≠ Some seq →
  call_standing k seq f l'.
Proof.
  intros [Hunres Hinj _] Hst Htasks Hchange Hreg.
  unfold call_standing in *. rewrite Htasks. clear Htasks.
  destruct l as [[[ss dv p n i] fs tr] ts].
  destruct l' as [[[ss' dv' p' n' i'] fs' tr'] ts'].
  unfold table in Hchange. cbn in *.
  inversion Hchange as [T HT|p0 fs0 t Ht Hfree|p0 fs0 t
                        |p0 fs0 t g s Hkey Hfut Hs He]; subst; clear Hchange.
  - done.
  - assert (t ≠ seq) as Hne by congruence.
    destruct (ts !! k) as [[s g|s g|[v|[| | | |msg [|a args]]]]|];
      try done.
    + destruct Hst as (-> & -> & Hlt & Hentry).
      rewrite length_app. repeat split; [lia|].
      apply entry_standing_insert; [done|lia|done].
    + destruct Hst as (-> & -> & Hlt & Hentry).
      rewrite length_app. repeat split; [lia|].
      apply entry_standing_insert; [done|lia|done].
    + destruct Hst as [Hout Hres]. rewrite lookup_insert_ne by done.
      split; [done|]. by apply lookup_app_l_Some.
    + by rewrite lookup_insert_ne.
    + by rewrite lookup_insert_ne.
    + destruct Hst as (Hout & Hres & Hnever). rewrite lookup_insert_ne by done.
      split; [done|]. split; [by apply lookup_app_l_Some|].
      apply lookup_lt_Some in Hres.
      intros t' [[_ ?]|[_ Ht']]%lookup_insert_Some; [lia|by eapply Hnever].
  - destruct (ts !! k) as [[s g|s g|[v|[| | | |msg [|a args]]]]|];
      try done.
    + destruct Hst as (-> & -> & Hlt & Hentry).
      repeat split; [done|]. by apply entry_standing_delete.
    + destruct Hst as (-> & -> & Hlt & Hentry).
      repeat split; [done|]. by apply entry_standing_delete.
    + destruct Hst as [Hout Hres]. split; [|done].
      apply lookup_delete_None. by right.
    + apply lookup_delete_None. by right.
    + apply lookup_delete_None. by right.
    + destruct Hst as (Hout & Hres & Hnever).
      split; [apply lookup_delete_None; by right|]. split; [done|].
      intros t' [_ Ht']%lookup_delete_Some. by eapply Hnever.
  - destruct (ts !! k) as [[s0 g0|s0 g0|[v|[| | | |msg [|a args]]]]|];
      try done.
    + destruct Hst as (-> & -> & Hlt & Hentry). rewrite length_insert.
      repeat split; [done|]. by apply entry_standing_delete.
    + destruct Hst as (-> & -> & Hlt & Hentry). rewrite length_insert.
      repeat split; [done|]. by apply entry_standing_delete.
    + destruct Hst as [Hout Hres].
      split; [apply lookup_delete_None; by right|].
      rewrite list_lookup_insert_ne; [done|]. intros <-. congruence.
    + apply lookup_delete_None. by right.
    + apply lookup_delete_None. by right.
    + destruct Hst as (Hout & Hres & Hnever).
      split; [apply lookup_delete_None; by right|]. split.
      * rewrite list_lookup_insert_ne; [done|]. intros <-. by eapply Hnever.
      * intros t' [_ Ht']%lookup_delete_Some. by eapply Hnever.
Qed.

(** How the call's own coroutine fares when it is resumed on its
    future. *)
Lemma call_standing_await k seq f l c w' :
  coherent (world l) →
  call_standing k seq f l →
  (tasks l !! k = Some (AtSendUnicast seq f) ∨
   tasks l !! k = Some (AtFuture seq f)) →
  stretch (await_future seq f) (world l) = (c, w') →
  call_standing k seq f {| world := w'; tasks := <[k := c]> (tasks l) |}.
Proof.
  intros [Hunres _ Hexn] Hst Hk. rewrite await_future_stretch. intros [= <- <-].
  assert (k < length (tasks l))%nat as Hlt
    by (destruct Hk as [Hk|Hk]; by eapply lookup_lt_Some).
  assert ((f < length (futures (world l)))%nat ∧
          (_pending (app (world l)) !! seq = Some f ∨
           (_pending (app (world l)) !! seq = None ∧
            ∀ t, _pending (app (world l)) !! t ≠ Some f)))
    as [Hf Hentry].
  { unfold call_standing in Hst.
    destruct Hk as [Hk|Hk]; rewrite Hk in Hst;
      by destruct Hst as (_ & _ & ? & ?). }
  unfold call_standing. cbn. rewrite list_lookup_insert_eq by done.
  destruct (futures (world l) !! f) as [[|v|e]|] eqn:Hfut; try done.
  - destruct Hentry as [Hin|[Hout _]]; [|done].
    apply Hunres in Hin. congruence.
  - rewrite (Hexn _ _ Hfut).
    destruct Hentry as [Hin|[Hout _]]; [|done].
    apply Hunres in Hin. congruence.
Qed.

Lemma step_call_standing k seq f l ev l' :
  coherent (world l) →
  call_standing k seq f l →
  not_request_for seq ev →
  loop_step l ev = Some l' →
  call_standing k seq f l'.
Proof.
  intros Hco Hst Hreq Hstep.
  pose proof (step_table_change _ _ _ Hstep) as Hchange.
  pose proof (call_standing_is_task _ _ _ _ Hst) as [c0 Hk].
  destruct ev as [nwk aps_frame data|task v|task|cb]; cbn in Hstep.
  - eapply call_standing_frame; [done..| |done|done].
    destruct (stretch _ _) as [c w']. simplify_eq. cbn.
    rewrite Hk. by apply lookup_app_l_Some.
  - destruct (tasks l !! task) as [[s g|s g|r]|] eqn:Htask; try done.
    destruct (stretch _ _) as [c w'] eqn:Hrun. simplify_eq.
    destruct (decide (task = k)) as [->|Hne]; cycle 1.
    { eapply call_standing_frame; [done..| |done|done].
      cbn. by rewrite list_lookup_insert_ne. }
    assert (s = seq ∧ g = f) as [-> ->].
    { unfold call_standing in Hst. rewrite Htask in Hst.
      by destruct Hst as (? & ? & _). }
    rewrite request_sent_stretch in Hrun.
    destruct (v !! 0%nat) as [v0|].
    2:{ simplify_eq. unfold call_standing. cbn.
        rewrite list_lookup_insert_eq; [done|by eapply lookup_lt_Some]. }
    case_bool_decide; [|eapply call_standing_await; eauto].
    pose proof Hst as Hst'. unfold call_standing in Hst'.
    rewrite Htask in Hst'. destruct Hst' as (_ & _ & Hlt & Hentry).
    destruct Hco as [Hunres Hinj _].
    unfold call_standing. cbn.
    destruct (_pending (app (world l)) !! seq) as [g|] eqn:Hseq; simplify_eq;
      cbn; rewrite list_lookup_insert_eq by (by eapply lookup_lt_Some).
    + destruct Hentry as [[= ->]|[? _]]; [|done].
      split; [apply lookup_delete_eq|]. split; [by eapply Hunres|].
      intros t' [Hne Ht']%lookup_delete_Some.
      by specialize (Hinj _ _ _ Hseq Ht').
    + done.
  - destruct (tasks l !! task) as [[s g|s g|r]|] eqn:Htask; try done.
    destruct (stretch _ _) as [c w'] eqn:Hrun.
    destruct (decide (task = k)) as [->|Hne]; cycle 1.
    { eapply call_standing_frame; [done..| |done|done].
      destruct c; simplify_eq; cbn; by rewrite list_lookup_insert_ne. }
    assert (s = seq ∧ g = f) as [-> ->].
    { unfold call_standing in Hst. rewrite Htask in Hst.
      by destruct Hst as (? & ? & _). }
    eapply call_standing_await in Hrun; [|done..|by right].
    destruct c; by simplify_eq.
  - simplify_eq. by eapply call_standing_frame.
Qed.

Lemma run_call_standing k seq f evs : ∀ l l',
  coherent (world l) →
  call_standing k seq f l →
  Forall (not_request_for seq) evs →
  loop_run l evs = Some l' →
  call_standing k seq f l'.
Proof.
  induction evs as [|ev evs IH]; intros l l' Hco Hst Hevs; cbn.
  - by intros [= <-].
  - apply Forall_cons in Hevs as [Hev Hevs].
    destruct (loop_step l ev) as [l1|] eqn:Hstep; [|done].
    apply IH; [by eapply step_coherent|by eapply step_call_standing|done].
Qed.

(** The standing of a call right after its [request] was started. *)
Lemma call_standing_begin l nwk aps_frame data l' :
  coherent (world l) →
  loop_step l (EvRequest nwk aps_frame data) = Some l' →
  call_standing (length (tasks l)) (sequence aps_frame)
    (length (futures (world l))) l'.
Proof.
  intros Hco. cbn. rewrite request_begin_stretch.
  unfold call_standing.
  destruct (_pending (app (world l)) !! sequence aps_frame) eqn:Hseq;
    intros [= <-]; cbn; rewrite list_lookup_middle by done; [done|].
  rewrite length_app, lookup_insert_eq. cbn. repeat split; [lia|by left].
Qed.

(** A future that is done stays as it is. *)
Lemma table_change_done reg T T' f s :
  table_change reg T T' →
  T.2 !! f = Some s → s ≠ FutPending → T'.2 !! f = Some s.
Proof.
  destruct 1 as [T|p fs t Hreg Hfree|p fs t|p fs t g s' Hkey Hfut Hs' He];
    cbn; intros Hf Hs; try done.
  - by apply lookup_app_l_Some.
  - rewrite list_lookup_insert_ne; [done|]. intros <-. congruence.
Qed.

Lemma run_done_future evs f s : ∀ l l',
  futures (world l) !! f = Some s → s ≠ FutPending →
  loop_run l evs = Some l' →
  futures (world l') !! f = Some s.
Proof.
  induction evs as [|ev evs IH]; intros l l' Hf Hs; cbn.
  - by intros [= <-].
  - destruct (loop_step l ev) as [l1|] eqn:Hstep; [|done].
    apply IH; [|done].
    by apply (table_change_done _ _ _ _ _ (step_table_change _ _ _ Hstep)).
Qed.

(** C2: a [request] whose transaction id is in the pending table fails
    its assertion and leaves the world as it was: no entry is
    overwritten, no future is created and no command is sent.  So in
    every state the loop reaches from a fresh application, the entry of
    a transaction id is held by at most one suspended [request]. *)
Theorem at_most_one_pending_request_per_id :
  (∀ w nwk aps_frame data,
     is_Some (_pending (app w) !! sequence aps_frame) →
     request_begin nwk aps_frame data w = (Raise AssertionError, w)) ∧
  (∀ evs l,
     loop_run fresh_loop evs = Some l →
     ∀ t f k1 k2 c1 c2,
       _pending (app (world l)) !! t = Some f →
       tasks l !! k1 = Some c1 → fut_of c1 = Some f →
       tasks l !! k2 = Some c2 → fut_of c2 = Some f →
       k1 = k2).
Proof.
  split.
  - intros w nwk aps_frame data [fut Hkey].
    unfold request_begin. unfold_m. cbn. by rewrite Hkey.
  - intros evs l Hrun t f k1 k2 c1 c2 _ Hk1 Hf1 Hk2 Hf2.
    pose proof (run_tasks_wf _ _ _ fresh_loop_tasks_wf Hrun) as [_ Hdist].
    by eapply Hdist.
Qed.




(** C10 (as amended): as long as no other [request] for the same
    transaction id is started after a call began, a call that has
    returned a value or raised a send failure finds no entry for its id
    in the pending table.  A returned value is the result of the call's
    future, which the resolver set when it removed the entry; after the
    send failure of line 179 the entry is removed and the call's future
    is unresolved and in no entry of the table; the send failure set by
    the send-completion callback reaches the call with its entry already
    removed. *)
Theorem request_completion_leaves_no_entry
    (l0 l : Loop) (nwk : Z) (aps_frame : ApsFrame) (data : list Byte.byte)
    (evs : list Event) :
  coherent (world l0) →
  loop_run l0 (EvRequest nwk aps_frame data :: evs) = Some l →
  Forall (not_request_for (sequence aps_frame)) evs →
  let k := length (tasks l0) in
  let f := length (futures (world l0)) in
  let p := _pending (app (world l)) in
  (∀ v, tasks l !! k = Some (Done (Return v)) →
        p !! sequence aps_frame = None ∧
        futures (world l) !! f = Some (FutResult v)) ∧
  (∀ status,
     tasks l !! k =
       Some (Done (Raise (Exception "Message send failure %s" [status]))) →
     p !! sequence aps_frame = None ∧
     futures (world l) !! f = Some FutPending ∧
     ∀ t, p !! t ≠ Some f) ∧
  (tasks l !! k = Some (Done (Raise (Exception "Message send failure" []))) →
   p !! sequence aps_frame = None).
Proof.
  intros Hco Hrun Hevs. cbn zeta. cbn [run] in Hrun.
  destruct (loop_step l0 _) as [l1|] eqn:Hstep; [|done].
  pose proof (call_standing_begin _ _ _ _ _ Hco Hstep) as Hst.
  eapply run_call_standing in Hst;
    [|by eapply step_coherent|exact Hevs|exact Hrun].
  unfold call_standing in Hst.
  split; [|split].
  - intros v Hk. by rewrite Hk in Hst.
  - intros status Hk. by rewrite Hk in Hst.
  - intros Hk. by rewrite Hk in Hst.
Qed.

End LoopProperties.

(** ** The startup sequence *)

Lemma calls_app tr1 tr2 : calls (tr1 ++ tr2) = calls tr1 ++ calls tr2.
Proof. apply omap_app. Qed.

Lemma calls_Call cs : calls (Call <$> cs) = cs.
Proof.
  induction cs as [|c cs IH]; [done|].
  change (c :: calls (Call <$> cs) = c :: cs). by rewrite IH.
Qed.

Lemma world_as_sent w : w = sent (app w) w [].
Proof. destruct w. unfold sent. cbn. by rewrite app_nil_r. Qed.

Lemma bind_run {A B} (m : M A) (k : A → M B) w :
  (m ≫= k) w =
    match m w with
    | (Return a, w') => k a w'
    | (Raise e, w') => (Raise e, w')
    end.
Proof. reflexivity. Qed.

Section StartupProperties.

Context {types : Types}.
Variable ezsp : list EzspCall → EzspCall → Response.

Local Abbreviation yield := (yield_from ezsp).

Lemma yield_from_sent c a w cs :
  yield c (sent a w cs) =
    (Return (ezsp (calls (trace w) ++ cs) c), sent a w (cs ++ [c])).
Proof.
  unfold yield_from, sent. cbn [trace app futures].
  by rewrite calls_app, calls_Call, fmap_app, <- app_assoc.
Qed.

(** A command whose response is not inspected. *)
Lemma unchecked_then {A} c (rest : M A) a w cs :
  (yield c ≫= λ _, rest) (sent a w cs) = rest (sent a w (cs ++ [c])).
Proof. by rewrite bind_run, yield_from_sent. Qed.

(** A command whose status is inspected, when it reports success and
    when it does not. *)
Lemma checked_then {A} c (k : Response → M A) a w cs :
  succeeds (ezsp (calls (trace w) ++ cs) c) →
  (yield c ≫= λ v, item v 0 ≫= λ v0,
     assert (bool_decide (v0 = 0)) ≫= λ _, k v) (sent a w cs)
  = k (ezsp (calls (trace w) ++ cs) c) (sent a w (cs ++ [c])).
Proof.
  intros Hok. rewrite bind_run, yield_from_sent. unfold item. rewrite Hok.
  done.
Qed.

Lemma checked_fails {A} c (k : Response → M A) a w cs s :
  ezsp (calls (trace w) ++ cs) c !! 0%nat = Some s → s ≠ 0 →
  (yield c ≫= λ v, item v 0 ≫= λ v0,
     assert (bool_decide (v0 = 0)) ≫= λ _, k v) (sent a w cs)
  = (Raise AssertionError, sent a w (cs ++ [c])).
Proof.
  intros Hs Hne. rewrite bind_run, yield_from_sent. unfold item. rewrite Hs.
  rewrite !bind_run. cbn. by rewrite bool_decide_eq_false_2.
Qed.

Lemma checked_last c a w cs :
  succeeds (ezsp (calls (trace w) ++ cs) c) →
  (yield c ≫= λ v, item v 0 ≫= λ v0, assert (bool_decide (v0 = 0)))
    (sent a w cs)
  = (Return tt, sent a w (cs ++ [c])).
Proof.
  intros Hok. rewrite bind_run, yield_from_sent. unfold item. rewrite Hok.
  done.
Qed.

Lemma checked_last_fails c a w cs s :
  ezsp (calls (trace w) ++ cs) c !! 0%nat = Some s → s ≠ 0 →
  (yield c ≫= λ v, item v 0 ≫= λ v0, assert (bool_decide (v0 = 0)))
    (sent a w cs)
  = (Raise AssertionError, sent a w (cs ++ [c])).
Proof.
  intros Hs Hne. rewrite bind_run, yield_from_sent. unfold item. rewrite Hs.
  rewrite !bind_run. cbn. by rewrite bool_decide_eq_false_2.
Qed.

Lemma cfg_then {A} config_id value (rest : M A) a w cs :
  succeeds (ezsp (calls (trace w) ++ cs)
              (setConfigurationValue config_id value)) →
  (_cfg ezsp config_id value ≫= λ _, rest) (sent a w cs)
  = rest (sent a w (cs ++ [setConfigurationValue config_id value])).
Proof.
  intros Hok. rewrite bind_run. unfold _cfg. by rewrite checked_last.
Qed.

Lemma cfg_fails {A} config_id value (rest : M A) a w cs s :
  ezsp (calls (trace w) ++ cs) (setConfigurationValue config_id value)
    !! 0%nat = Some s → s ≠ 0 →
  (_cfg ezsp config_id value ≫= λ _, rest) (sent a w cs)
  = (Raise AssertionError,
     sent a w (cs ++ [setConfigurationValue config_id value])).
Proof.
  intros Hs Hne. rewrite bind_run. unfold _cfg.
  by erewrite checked_last_fails.
Qed.

Lemma item_then {A} (v : Response) (k : nat) x (rest : Z → M A) w :
  v !! k = Some x → (item v k ≫= rest) w = rest x w.
Proof. intros Hx. rewrite bind_run. unfold item. by rewrite Hx. Qed.

Lemma guard_then {A} (b : bool) e (rest : M A) w :
  ((if b then raise e else mret tt) ≫= λ _, rest) w =
    if b then (Raise e, w) else rest w.
Proof. rewrite bind_run. by destruct b. Qed.

Lemma latch_then {A} (f : ControllerApplication → ControllerApplication)
    (rest : M A) a w cs :
  (get_app ≫= λ a, set_app (f a) ≫= λ _, rest) (sent a w cs) =
    rest (sent (f a) w cs).
Proof. reflexivity. Qed.

(** One command of the sequence, by whichever of the lemmas above
    applies to the hypotheses at hand. *)
Ltac startup_step :=
  first
    [ rewrite unchecked_then
    | rewrite cfg_then by assumption
    | erewrite cfg_fails by eassumption
    | rewrite checked_then by assumption
    | erewrite checked_fails by eassumption
    | rewrite checked_last by assumption
    | erewrite checked_last_fails by eassumption
    | erewrite item_then by eassumption
    | rewrite guard_then
    | rewrite latch_then ];
  cbn [Datatypes.app].

(** The hypotheses about the responses of a run, one per command. *)
Ltac responses_facts :=
  unfold responses in *; cbn in *;
  repeat match goal with
         | H : Forall _ (_ :: _) |- _ =>
             let H1 := fresh "Hok" in apply Forall_cons in H as [H1 H]
         end;
  simplify_eq.

(** C5: a run of [startup] in which every inspected command (the
    configuration writes, the network initialisation, the parameters
    fetch and the policy installs) reports success and the network
    parameters give the coordinator role completes, and latches the node
    id and the EUI64 that the NCP returns as the application's [_nwk]
    and [_ieee]; a run in which the inspected commands up to the
    parameters fetch report success and the role given is not the
    coordinator's raises the exception that says so, right after
    [getNetworkParameters], with the application object, and so its
    address and identity, as they were. *)
Theorem startup_latches_session_only_as_coordinator (w : World) :
  (Forall succeeds (take 12 (drop 2 (responses ezsp w))) →
   ∀ v vn vi n i,
     responses ezsp w !! 10%nat = Some v → v !! 1%nat = Some COORDINATOR →
     responses ezsp w !! 14%nat = Some vn → vn !! 0%nat = Some n →
     responses ezsp w !! 15%nat = Some vi → vi !! 0%nat = Some i →
     ∃ w', startup ezsp w = (Return tt, w') ∧
           _nwk (app w') = Some n ∧ _ieee (app w') = Some i ∧
           trace w' = trace w ++ (Call <$> startup_calls) ++ [AddCallback]) ∧
  (Forall succeeds (take 9 (drop 2 (responses ezsp w))) →
   ∀ v role,
     responses ezsp w !! 10%nat = Some v → v !! 1%nat = Some role →
     role ≠ COORDINATOR →
     startup ezsp w =
       (Raise (Exception "Network not configured as coordinator" []),
        sent (app w) w (take 11 startup_calls))).
Proof.
  split.
  - intros Hok v vn vi n i H10 Hrole H14 Hn H15 Hi. responses_facts.
    eexists. split.
    + transitivity (startup ezsp (sent (app w) w []));
        [by rewrite <- world_as_sent|].
      unfold startup. do 13 startup_step.
      rewrite bool_decide_eq_false_2 by (intros Hne; by apply Hne).
      rewrite bind_run. unfold _policy. do 3 startup_step.
      cbv beta iota. rewrite bind_run, yield_from_sent. cbv beta iota.
      do 2 startup_step.
      rewrite bind_run, yield_from_sent. cbv beta iota.
      do 2 startup_step. reflexivity.
    + cbn. rewrite <- !app_assoc. done.
  - intros Hok v role H10 Hrole Hne. responses_facts.
    transitivity (startup ezsp (sent (app w) w []));
      [by rewrite <- world_as_sent|].
    unfold startup. do 13 startup_step.
    by rewrite bool_decide_eq_true_2.
Qed.

(** C6 (as amended): the configuration writes, the network
    initialisation, the network-parameters fetch and the policy installs
    (commands 2 to 13 of the sequence) have their status inspected: when
    the commands inspected before the [k]-th report success, with the
    coordinator role if the parameters fetch is among them, and the
    [k]-th reports another status, [startup] raises [AssertionError]
    with that command the last one sent and the application object
    untouched.  The responses to [reset] and [version] play no part. *)
Theorem startup_aborts_at_the_first_failed_check
    (w : World) (k : nat) (v : Response) (s : Z) :
  (2 ≤ k ≤ 13)%nat →
  Forall succeeds (take (k - 2) (drop 2 (responses ezsp w))) →
  ((10 < k)%nat →
   ∀ v10, responses ezsp w !! 10%nat = Some v10 →
          v10 !! 1%nat = Some COORDINATOR) →
  responses ezsp w !! k = Some v →
  v !! 0%nat = Some s →
  s ≠ 0 →
  startup ezsp w =
    (Raise AssertionError, sent (app w) w (take (S k) startup_calls)).
Proof.
  intros Hk Hok Hrole Hv Hs Hne.
  transitivity (startup ezsp (sent (app w) w []));
    [by rewrite <- world_as_sent|].
  destruct k as [|[|[|[|[|[|[|[|[|[|[|[|[|[|k]]]]]]]]]]]]]]; try lia.
  all: first [specialize (Hrole ltac:(lia) _ eq_refl)|clear Hrole].
  all: responses_facts.
  all: unfold startup; repeat startup_step; try done.
  all: rewrite bool_decide_eq_false_2 by (intros Hc; by apply Hc).
  all: rewrite bind_run; unfold _policy; repeat startup_step; done.
Qed.

End StartupProperties.

(** * Concrete runs *)

(** C6 (as stated) fails: an NCP that answers [version] with a
    non-success status and every other command with success does not
    make [startup] fail. *)
Lemma version_failure_does_not_abort_startup :
  ¬ (∀ (ezsp : list EzspCall → EzspCall → Response) (k : nat)
       (v : Response) (s : Z),
       (k < 14)%nat →
       responses (types := sample_types) ezsp __init__ !! k = Some v →
       v !! 0%nat = Some s → s ≠ 0 →
       ∃ e w', startup (types := sample_types) ezsp __init__ = (Raise e, w')).
Proof.
  intros H.
  destruct (H (scripted (script_failing_at 1)) 1%nat [1] 1)
    as (e & w' & Hrun); [lia|reflexivity|reflexivity|lia|].
  vm_compute in Hrun. discriminate.
Qed.

(** C10 (as stated) fails: the reply to a request with id 5 resolves it,
    another request with id 5 is started before the loop wakes the first
    caller, and the first call returns while the table holds an entry
    for id 5. *)
Lemma reused_id_is_pending_at_completion :
  ¬ (∀ (evs : list Event) (l : Loop) (v : Args),
       run (types := sample_types) sample_deserialize sample_deserialize
         fresh_loop (EvRequest 7 sample_frame [] :: evs) = Some l →
       tasks l !! 0%nat = Some (Done (Return v)) →
       _pending (app (world l)) !! sequence sample_frame = None).
Proof.
  intros H.
  specialize (H (tail sample_overtaken) _ [42] eq_refl eq_refl).
  vm_compute in H. discriminate.
Qed.


Lemma at_most_one_pending_request_per_id_witness :
  (is_Some (_pending (app sample_pending_world) !! sequence sample_frame) ∧
   request_begin 7 sample_frame [] sample_pending_world
     = (Raise AssertionError, sample_pending_world)) ∧
  (∃ l, run (types := sample_types) sample_deserialize sample_deserialize
          fresh_loop [EvRequest 7 sample_frame []] = Some l ∧
        _pending (app (world l)) !! 5 = Some 0%nat ∧
        tasks l !! 0%nat = Some (AtSendUnicast 5 0) ∧
        0%nat = 0%nat).
Proof.
  pose proof (at_most_one_pending_request_per_id (types := sample_types)
                sample_deserialize sample_deserialize) as [Hreject Hone].
  assert (is_Some (_pending (app sample_pending_world)
                     !! sequence sample_frame)) as Hin
    by (exists 0%nat; reflexivity).
  split; [split; [exact Hin|by apply Hreject]|].
  eexists. split; [reflexivity|]. split; [reflexivity|].
  split; [reflexivity|].
  eapply (Hone [EvRequest 7 sample_frame []] _ eq_refl 5 0%nat);
    reflexivity.
Defined.

Lemma handle_reply_resolves_exactly_its_entry_witness :
  (_pending (app sample_pending_world) !! 5 = Some 0%nat ∧
   futures sample_pending_world !! 0%nat = Some FutPending ∧
   ∃ w', _handle_reply 7 sample_frame 5 1 [42] sample_pending_world
           = (Return tt, w') ∧
         _pending (app w') !! 5 = None ∧
         futures w' !! 0%nat = Some (FutResult [42])) ∧
  (_pending (app __init__) !! 5 = None ∧
   (_handle_reply 7 sample_frame 5 1 [42] __init__).1 = Return tt).
Proof.
  split.
  - split; [reflexivity|]. split; [reflexivity|].
    destruct (proj1 (handle_reply_resolves_exactly_its_entry
                       sample_pending_world 7 sample_frame 5 1 [42])
                0%nat eq_refl eq_refl) as (w' & Hrun & Hgone & Hres & _).
    by exists w'.
  - split; [reflexivity|].
    by rewrite (proj2 (handle_reply_resolves_exactly_its_entry
                         __init__ 7 sample_frame 5 1 [42]) eq_refl).
Defined.

Lemma request_uses_the_frame_sequence_witness :
  _pending (app __init__) !! sequence sample_frame = None ∧
  ∃ w', request_begin 7 sample_frame [] __init__
          = (Return (AtSendUnicast 5 0), w') ∧
        _pending (app w') = <[5 := 0%nat]> ∅ ∧
        trace w' = [Call (sendUnicast OUTGOING_DIRECT 7 sample_frame 5 [])].
Proof.
  split; [reflexivity|].
  exact (proj1 (request_uses_the_frame_sequence __init__ 7 sample_frame [])
           eq_refl).
Defined.


Lemma handle_leave_removes_and_notifies_witness :
  (devices (app sample_registry_world) !! 1 = Some (Device.new 1 10) ∧
   ∃ w', _handle_leave 10 1 sample_registry_world = (Return tt, w') ∧
         trace w' =
           [Log INFO "Device 0x%04x (%s) left the network";
            ListenerEvent "device_left" (Device.new 1 10)] ∧
         (get_device (Some 1) None w').1 = Raise KeyError) ∧
  (devices (app sample_registry_world) !! 2 = None ∧
   (_handle_leave 20 2 sample_registry_world).1 = Return tt).
Proof.
  split.
  - split; [reflexivity|].
    destruct (proj1 (handle_leave_removes_and_notifies
                       sample_registry_world 10 1) _ eq_refl)
      as (w' & Hrun & _ & _ & Htrace & Hieee & _).
    by exists w'.
  - split; [reflexivity|].
    by rewrite (proj2 (handle_leave_removes_and_notifies
                         sample_registry_world 20 2) eq_refl).
Defined.

Lemma startup_latches_session_only_as_coordinator_witness :
  (Forall succeeds
     (take 12 (drop 2 (responses (types := sample_types)
                         (scripted (script_with_role 1)) __init__))) ∧
   ∃ w', startup (types := sample_types) (scripted (script_with_role 1))
           __init__ = (Return tt, w') ∧
         _nwk (app w') = Some 0 ∧
         _ieee (app w') = Some 1234605616436508552) ∧
  (Forall succeeds
     (take 9 (drop 2 (responses (types := sample_types)
                        (scripted (script_with_role 2)) __init__))) ∧
   2 ≠ COORDINATOR (Types := sample_types) ∧
   startup (types := sample_types) (scripted (script_with_role 2)) __init__
     = (Raise (Exception "Network not configured as coordinator" []),
        sent (app __init__) __init__
          (take 11 (startup_calls (types := sample_types))))).
Proof.
  split.
  - assert (Forall succeeds
              (take 12 (drop 2 (responses (types := sample_types)
                                  (scripted (script_with_role 1)) __init__))))
      as Hok by (vm_compute; repeat constructor).
    split; [exact Hok|].
    destruct (proj1 (startup_latches_session_only_as_coordinator
                       (types := sample_types)
                       (scripted (script_with_role 1)) __init__)
                Hok [0; 1] [0] [1234605616436508552] 0 1234605616436508552
                eq_refl eq_refl eq_refl eq_refl eq_refl eq_refl)
      as (w' & Hrun & Hnwk & Hieee & _).
    by exists w'.
  - assert (Forall succeeds
              (take 9 (drop 2 (responses (types := sample_types)
                                 (scripted (script_with_role 2)) __init__))))
      as Hok by (vm_compute; repeat constructor).
    split; [exact Hok|]. split; [discriminate|].
    apply (proj2 (startup_latches_session_only_as_coordinator
                    (types := sample_types)
                    (scripted (script_with_role 2)) __init__)
             Hok [0; 2] 2 eq_refl eq_refl).
    discriminate.
Defined.

Lemma startup_aborts_at_the_first_failed_check_witness :
  let ezsp := scripted (script_failing_at 4) in
  Forall succeeds
    (take (4 - 2) (drop 2 (responses (types := sample_types) ezsp __init__))) ∧
  responses (types := sample_types) ezsp __init__ !! 4%nat = Some [1] ∧
  startup (types := sample_types) ezsp __init__ =
    (Raise AssertionError,
     sent (app __init__) __init__
       (take 5 (startup_calls (types := sample_types)))).
Proof.
  intros ezsp.
  assert (Forall succeeds
            (take (4 - 2)
               (drop 2 (responses (types := sample_types) ezsp __init__))))
    as Hok by (vm_compute; repeat constructor).
  split; [exact Hok|]. split; [reflexivity|].
  apply (startup_aborts_at_the_first_failed_check (types := sample_types)
           ezsp __init__ 4 [1] 1);
    [lia|exact Hok|intros; lia|reflexivity|reflexivity|lia].
Defined.

Lemma request_completion_leaves_no_entry_witness :
  coherent __init__ ∧
  Forall (not_request_for (sequence sample_frame))
    [EvSent 0 [0]; EvCallback sample_reply; EvWakeup 0] ∧
  ∃ l, run (types := sample_types) sample_deserialize sample_deserialize
         fresh_loop
         (EvRequest 7 sample_frame []
            :: [EvSent 0 [0]; EvCallback sample_reply; EvWakeup 0])
         = Some l ∧
       tasks l !! 0%nat = Some (Done (Return [42])) ∧
       _pending (app (world l)) !! 5 = None ∧
       futures (world l) !! 0%nat = Some (FutResult [42]).
Proof.
  assert (Forall (not_request_for (sequence sample_frame))
            [EvSent 0 [0]; EvCallback sample_reply; EvWakeup 0]) as Hevs
    by (repeat constructor; discriminate).
  split; [exact init_coherent|]. split; [exact Hevs|].
  eexists. split; [reflexivity|]. split; [reflexivity|].
  refine (proj1 (request_completion_leaves_no_entry (types := sample_types)
                   sample_deserialize sample_deserialize
                   fresh_loop _ 7 sample_frame []
                   [EvSent 0 [0]; EvCallback sample_reply; EvWakeup 0]
                   init_coherent _ Hevs) [42] _);
    reflexivity.
Defined.

(** * Further properties of the application *)

(** ** Joining permission *)

(** X1: [permit] hands [permitJoining] to the driver exactly when the
    duration is between 0 and 254; outside that range it fails its
    assertion and nothing is sent. *)
Theorem permit_checks_the_duration (w : World) (time_s : Z) :
  (0 ≤ time_s ≤ 254 →
     permit time_s w =
       (Return tt,
        {| app := app w; futures := futures w;
           trace := trace w ++ [Call (permitJoining time_s)] |})) ∧
  (time_s < 0 ∨ 254 < time_s → permit time_s w = (Raise AssertionError, w)).
Proof.
  unfold permit. unfold_m. split; intros Hrange.
  - by rewrite bool_decide_eq_true_2.
  - rewrite bool_decide_eq_false_2; [done|lia].
Qed.

Lemma permit_checks_the_duration_witness :
  (0 ≤ 254 ≤ 254 ∧ (permit 254 __init__).1 = Return tt) ∧
  ((255 < 0 ∨ 254 < 255) ∧ permit 255 __init__ = (Raise AssertionError, __init__)).
Proof.
  split.
  - split; [lia|].
    by rewrite (proj1 (permit_checks_the_duration __init__ 254)) by lia.
  - split; [lia|].
    apply (proj2 (permit_checks_the_duration __init__ 255)). lia.
Defined.

(** ** Lookups in the registry *)

Lemma get_device_by_nwk_complete w n k dev :
  devices (app w) !! k = Some dev → Device._nwk dev = n →
  ∃ kd, get_device None (Some n) w = (Return kd, w).
Proof.
  intros Hk Hn. unfold get_device. unfold_m. cbn.
  destruct (find _ _) as [kd|] eqn:Hfind; [by eexists|].
  eapply find_none in Hfind;
    [|apply list_elem_of_In, elem_of_map_to_list; exact Hk].
  apply bool_decide_eq_false in Hfind. cbn in Hfind. congruence.
Qed.

Lemma get_device_by_nwk_none w n :
  (∀ k dev, devices (app w) !! k = Some dev → Device._nwk dev ≠ n) →
  get_device None (Some n) w = (Raise KeyError, w).
Proof.
  intros Hnone.
  destruct (get_device None (Some n) w) as [[kd|e] w'] eqn:Hrun.
  - apply get_device_by_nwk_found in Hrun as [Hk Hn]. by apply Hnone in Hk.
  - revert Hrun. unfold get_device. unfold_m. cbn.
    destruct (find _ _); cbn; congruence.
Qed.

(** X2: lookup by short address finds a registered device with that
    address whenever there is one, leaving the world as it was, and
    raises [KeyError] exactly when no registered device has it. *)
Theorem get_device_by_short_address (w : World) (n : Z) :
  ((∃ k dev, devices (app w) !! k = Some dev ∧ Device._nwk dev = n) →
     ∃ kd, get_device None (Some n) w = (Return kd, w) ∧
           devices (app w) !! kd.1 = Some kd.2 ∧ Device._nwk kd.2 = n) ∧
  ((∀ k dev, devices (app w) !! k = Some dev → Device._nwk dev ≠ n) →
     get_device None (Some n) w = (Raise KeyError, w)).
Proof.
  split.
  - intros (k & dev & Hk & Hn).
    destruct (get_device_by_nwk_complete _ _ _ _ Hk Hn) as [kd Hrun].
    exists kd. split; [done|]. by eapply get_device_by_nwk_found.
  - apply get_device_by_nwk_none.
Qed.

Lemma get_device_by_short_address_witness :
  (devices (app sample_registry_world) !! 1 = Some (Device.new 1 10) ∧
   ∃ kd, get_device None (Some 10) sample_registry_world
           = (Return kd, sample_registry_world) ∧
         Device._nwk kd.2 = 10) ∧
  get_device None (Some 11) __init__ = (Raise KeyError, __init__).
Proof.
  split.
  - split; [reflexivity|].
    destruct (proj1 (get_device_by_short_address sample_registry_world 10))
      as (kd & Hrun & _ & Hn); [by exists 1, (Device.new 1 10)|].
    by exists kd.
  - apply (proj2 (get_device_by_short_address __init__ 11)).
    intros k dev Hk. unfold __init__ in Hk. cbn [devices app] in Hk.
    by rewrite lookup_empty in Hk.
Defined.

(** X3: [add_device] registers an identity once: the device it returns
    is the registry's entry for that identity, found again by
    [get_device], returned unchanged by a second [add_device] whatever
    short address that one is given, and no other entry is touched. *)
Theorem add_device_registers_once (w : World) (ieee nwk nwk' : Z) :
  ∃ dev w1,
    add_device ieee nwk w = (Return dev, w1) ∧
    devices (app w1) !! ieee = Some dev ∧
    get_device (Some ieee) None w1 = (Return (ieee, dev), w1) ∧
    add_device ieee nwk' w1 = (Return dev, w1) ∧
    (∀ k, k ≠ ieee → devices (app w1) !! k = devices (app w) !! k) ∧
    (devices (app w) !! ieee = None → dev = Device.new ieee nwk).
Proof.
  unfold add_device, get_device. unfold_m. cbn.
  destruct (devices (app w) !! ieee) as [dev|] eqn:Hdev; cbn.
  - exists dev, w. rewrite Hdev. by repeat split.
  - eexists _, _. split; [reflexivity|]. cbn. rewrite lookup_insert_eq.
    split; [done|]. split; [done|]. split; [done|]. split; [|done].
    intros k Hk. by rewrite lookup_insert_ne.
Qed.

(** ** Joining and leaving *)

(** X4: for an identity that is not registered, a join notification
    followed by a leave notification gives the registry back as it was,
    and the [device_left] event carries the device that [device_joined]
    announced. *)
Theorem join_then_leave_restores_the_registry
    (w : World) (nwk nwk' ieee du jd pn : Z) :
  devices (app w) !! ieee = None →
  ∃ w1 w2,
    _handle_join nwk ieee du jd pn w = (Return tt, w1) ∧
    _handle_leave nwk' ieee w1 = (Return tt, w2) ∧
    app w2 = app w ∧
    trace w2 = trace w ++
      [Log INFO "Device 0x%04x (%s) joined the network";
       ListenerEvent "device_joined" (Device.new ieee nwk);
       CallSoonInitialize (Device.new ieee nwk);
       Log INFO "Device 0x%04x (%s) left the network";
       ListenerEvent "device_left" (Device.new ieee nwk)].
Proof.
  intros Hdev. eexists _, _. split; [by apply handle_join_new|].
  unfold _handle_leave. unfold_m. cbn. rewrite lookup_insert_eq. cbn.
  split; [reflexivity|]. cbn. split.
  - unfold with_devices. cbn. rewrite delete_insert_id by done.
    by destruct (app w).
  - by rewrite <- !app_assoc.
Qed.

Lemma join_then_leave_restores_the_registry_witness :
  devices (app __init__) !! 1 = None ∧
  ∃ w1 w2, _handle_join 10 1 0 0 0 __init__ = (Return tt, w1) ∧
           _handle_leave 10 1 w1 = (Return tt, w2) ∧
           app w2 = app __init__.
Proof.
  split; [reflexivity|].
  destruct (join_then_leave_restores_the_registry __init__ 10 10 1 0 0 0
              eq_refl) as (w1 & w2 & Hjoin & Hleave & Happ & _).
  by exists w1, w2.
Defined.

(** X5: after the join notification that registered an unknown
    identity, the device is found by its identity.  Lookup by its short
    address returns a registered device with that address: this device
    itself when no device registered before has that address, and
    otherwise this device or one of those registered before.  A repeated
    notification with the same address only writes to the log: no second
    event, no second initialisation. *)
Theorem first_join_registers_and_repeats_are_skipped
    (w : World) (nwk ieee du jd pn : Z) :
  devices (app w) !! ieee = None →
  ∃ w1,
    _handle_join nwk ieee du jd pn w = (Return tt, w1) ∧
    get_device (Some ieee) None w1 = (Return (ieee, Device.new ieee nwk), w1) ∧
    (∃ kd, get_device None (Some nwk) w1 = (Return kd, w1) ∧
           devices (app w1) !! kd.1 = Some kd.2 ∧
           Device._nwk kd.2 = nwk ∧
           (kd = (ieee, Device.new ieee nwk) ∨
            devices (app w) !! kd.1 = Some kd.2)) ∧
    ((∀ k dev, devices (app w) !! k = Some dev → Device._nwk dev ≠ nwk) →
     get_device None (Some nwk) w1 = (Return (ieee, Device.new ieee nwk), w1)) ∧
    _handle_join nwk ieee du jd pn w1 =
      (Return tt,
       {| app := app w1; futures := futures w1;
          trace := trace w1 ++
            [Log INFO "Device 0x%04x (%s) joined the network";
             Log DEBUG "Skip initialization for existing device %s"] |}).
Proof.
  intros Hdev. eexists. split; [by apply handle_join_new|].
  set (w1 := {| app := _ |}).
  assert (devices (app w1) !! ieee = Some (Device.new ieee nwk)) as Hnew
    by apply lookup_insert_eq.
  assert (∃ kd, get_device None (Some nwk) w1 = (Return kd, w1) ∧
                devices (app w1) !! kd.1 = Some kd.2 ∧
                Device._nwk kd.2 = nwk ∧
                (kd = (ieee, Device.new ieee nwk) ∨
                 devices (app w) !! kd.1 = Some kd.2)) as Hfound.
  { destruct (get_device_by_nwk_complete w1 nwk _ _ Hnew eq_refl)
      as [kd Hrun].
    exists kd. split; [done|].
    destruct (get_device_by_nwk_found _ _ _ _ Hrun) as [Hk Hn].
    split; [done|]. split; [done|].
    destruct kd as [k d]. cbn in Hk |- *.
    apply lookup_insert_Some in Hk as [[<- <-]|[_ Hk]]; [by left|by right]. }
  split; [|split; [exact Hfound|split]].
  - unfold get_device. unfold_m. cbn. by rewrite lookup_insert_eq.
  - intros Hfree. destruct Hfound as (kd & Hrun & _ & Hn & [->|Hold]);
      [done|]. by apply Hfree in Hold.
  - by apply (handle_join_duplicate w1 nwk ieee du jd pn _ Hnew).
Qed.

Lemma first_join_registers_and_repeats_are_skipped_witness :
  devices (app __init__) !! 1 = None ∧
  ∃ w1, _handle_join 10 1 0 0 0 __init__ = (Return tt, w1) ∧
        get_device (Some 1) None w1 = (Return (1, Device.new 1 10), w1) ∧
        get_device None (Some 10) w1 = (Return (1, Device.new 1 10), w1).
Proof.
  split; [reflexivity|].
  destruct (first_join_registers_and_repeats_are_skipped __init__ 10 1 0 0 0
              eq_refl) as (w1 & Hjoin & Hget & _ & Hnwk & _).
  exists w1. split; [done|]. split; [done|].
  apply Hnwk. intros k dev Hk. discriminate Hk.
Defined.

(** ** Late replies and failures *)



(** X7: when [sendUnicast] reports a non-success status, [request]
    removes whatever entry is registered under its transaction id,
    completes no future, and raises the send failure with that status;
    when the entry is already gone (a send-failure callback or a reply
    took it) the removal itself raises [KeyError]. *)
Theorem request_send_failure_paths
    (w : World) (seq : Z) (fut : nat) (v : Response) (status : Z) :
  v !! 0%nat = Some status → status ≠ 0 →
  (∀ g, _pending (app w) !! seq = Some g →
     request_sent seq fut v w =
       (Raise (Exception "Message send failure %s" [status]),
        {| app := with_pending (delete seq (_pending (app w))) (app w);
           futures := futures w; trace := trace w |})) ∧
  (_pending (app w) !! seq = None →
     request_sent seq fut v w = (Raise KeyError, w)).
Proof.
  intros Hv Hne. unfold request_sent, item. rewrite Hv. unfold_m. cbn.
  rewrite bool_decide_eq_true_2 by done. cbn. split.
  - intros g Hkey. by rewrite Hkey.
  - intros Hkey. by rewrite Hkey.
Qed.

Lemma request_send_failure_paths_witness :
  [3] !! 0%nat = Some 3 ∧ 3 ≠ 0 ∧
  (_pending (app sample_pending_world) !! 5 = Some 0%nat ∧
   (request_sent 5 0 [3] sample_pending_world).1
     = Raise (Exception "Message send failure %s" [3])) ∧
  (_pending (app __init__) !! 5 = None ∧
   request_sent 5 0 [3] __init__ = (Raise KeyError, __init__)).
Proof.
  split; [reflexivity|]. split; [lia|].
  pose proof (request_send_failure_paths sample_pending_world 5 0 [3] 3
                eq_refl ltac:(lia)) as [Hpresent _].
  pose proof (request_send_failure_paths __init__ 5 0 [3] 3
                eq_refl ltac:(lia)) as [_ Habsent].
  split.
  - split; [reflexivity|]. by rewrite (Hpresent 0%nat eq_refl).
  - split; [reflexivity|]. by apply Habsent.
Defined.

(** X8: a request from a short address under which no device is
    registered is logged and dropped; from a known short address it is
    delegated, once, to a registered device with that address.  Either
    way the application object and the futures stay as they were. *)
Theorem handle_request_needs_a_known_sender
    (w : World) (sender : Z) (aps_frame : ApsFrame) (tsn command_id : Z)
    (args : Args) :
  ((∀ k dev, devices (app w) !! k = Some dev → Device._nwk dev ≠ sender) →
     _handle_request sender aps_frame tsn command_id args w =
       (Return tt,
        {| app := app w; futures := futures w;
           trace := trace w ++
             [Log WARNING "Request on unknown device 0x%04x"] |})) ∧
  ((∃ k dev, devices (app w) !! k = Some dev ∧ Device._nwk dev = sender) →
     ∃ k dev, devices (app w) !! k = Some dev ∧ Device._nwk dev = sender ∧
       _handle_request sender aps_frame tsn command_id args w =
         (Return tt,
          {| app := app w; futures := futures w;
             trace := trace w ++
               [HandleRequest dev aps_frame tsn command_id args] |})).
Proof.
  split.
  - intros Hnone. unfold _handle_request, try_except_KeyError.
    unfold mbind, M_bind, bind at 1 2.
    by rewrite (get_device_by_nwk_none _ _ Hnone).
  - intros (k & dev & Hk & Hn).
    destruct (get_device_by_nwk_complete _ _ _ _ Hk Hn) as [[k' dev'] Hrun].
    destruct (get_device_by_nwk_found _ _ _ _ Hrun) as [Hk' Hn'].
    exists k', dev'. split; [done|]. split; [done|].
    unfold _handle_request, try_except_KeyError.
    unfold mbind, M_bind, bind at 1 2. by rewrite Hrun.
Qed.

Lemma handle_request_needs_a_known_sender_witness :
  (_handle_request 10 sample_frame 5 1 [] __init__).1 = Return tt ∧
  ∃ k dev, devices (app sample_registry_world) !! k = Some dev ∧
           Device._nwk dev = 10 ∧
           trace (_handle_request 10 sample_frame 5 1 []
                    sample_registry_world).2
             = [HandleRequest dev sample_frame 5 1 []].
Proof.
  pose proof (handle_request_needs_a_known_sender __init__ 10 sample_frame
                5 1 []) as [Hunknown _].
  pose proof (handle_request_needs_a_known_sender sample_registry_world 10
                sample_frame 5 1 []) as [_ Hknown].
  split.
  - rewrite Hunknown; [done|].
    intros k dev Hk. unfold __init__ in Hk. cbn [devices app] in Hk.
    by rewrite lookup_empty in Hk.
  - destruct Hknown as (k & dev & Hk & Hn & Hrun);
      [by exists 1, (Device.new 1 10)|].
    exists k, dev. split; [done|]. split; [done|]. by rewrite Hrun.
Defined.

(** ** Incoming frames *)

Section FrameProperties.

Context {types : Types}.
Variable zdo_deserialize zcl_deserialize :
  ApsFrame → list Byte.byte → Res (Z * Z * bool * Args).

Local Abbreviation frame_handler :=
  (_handle_frame zdo_deserialize zcl_deserialize).
Local Abbreviation dispatch :=
  (ezsp_callback_handler zdo_deserialize zcl_deserialize).

(** The codec that [_handle_frame] picks for a frame. *)
Local Abbreviation codec aps_frame :=
  (if bool_decide (destinationEndpoint aps_frame = 0)
   then zdo_deserialize else zcl_deserialize).

(** [_handle_frame] first records the radio details, which cannot fail,
    and then decodes and routes the frame. *)
Lemma handle_frame_run mt aps_frame lqi rssi sender bi ai msg w :
  frame_handler mt aps_frame lqi rssi sender bi ai msg w =
    match codec aps_frame aps_frame msg with
    | Raise e => (Raise e, radio_recorded w sender lqi rssi)
    | Return (tsn, command_id, is_reply, args) =>
        if is_reply
        then _handle_reply sender aps_frame tsn command_id args
               (radio_recorded w sender lqi rssi)
        else _handle_request sender aps_frame tsn command_id args
               (radio_recorded w sender lqi rssi)
    end.
Proof.
  unfold _handle_frame, radio_recorded, get_device.
  unfold mbind, M_bind, bind, try_except_KeyError, get_app, set_app, emit,
    mret, M_ret, ret, raise.
  cbn. destruct (find _ _) as [kd|]; cbn.
  - by destruct (codec aps_frame aps_frame msg) as [[[[? ?] []] ?]|].
  - by destruct (codec aps_frame aps_frame msg) as [[[[? ?] []] ?]|].
Qed.

Lemma radio_recorded_table w sender lqi rssi :
  table (radio_recorded w sender lqi rssi) = table w.
Proof. unfold radio_recorded. by destruct (find _ _). Qed.

(** X9: a frame that its codec cannot decode makes the callback raise
    the codec's exception after the radio details were recorded; the
    pending table and every future stay as they were, and nothing is
    handed to a device. *)
Theorem undecodable_frame_leaves_the_table
    (w : World) (mt : Z) (aps_frame : ApsFrame)
    (lqi rssi sender bi ai : Z) (msg : list Byte.byte) (e : Exn) :
  codec aps_frame aps_frame msg = Raise e →
  ∃ w', dispatch (incomingMessageHandler mt aps_frame lqi rssi sender bi ai msg)
          w = (Raise e, w') ∧
        w' = radio_recorded w sender lqi rssi ∧
        _pending (app w') = _pending (app w) ∧
        futures w' = futures w.
Proof.
  intros Hcodec. eexists. split.
  - cbn [ezsp_callback_handler]. rewrite handle_frame_run. by rewrite Hcodec.
  - split; [done|].
    pose proof (radio_recorded_table w sender lqi rssi) as Htable.
    unfold table in Htable. by simplify_eq.
Qed.

(** X10: an incoming frame that decodes as a reply with transaction id
    [tsn], when [tsn] has an unresolved entry in the table, removes that
    entry and resolves its future with the decoded arguments, which is
    what the [request] suspended on that future then returns. *)
Theorem incoming_reply_reaches_the_requester
    (w : World) (mt : Z) (aps_frame : ApsFrame)
    (lqi rssi sender bi ai : Z) (msg : list Byte.byte)
    (tsn command_id : Z) (args : Args) (fut : nat) :
  codec aps_frame aps_frame msg = Return (tsn, command_id, true, args) →
  _pending (app w) !! tsn = Some fut →
  futures w !! fut = Some FutPending →
  ∃ w', dispatch (incomingMessageHandler mt aps_frame lqi rssi sender bi ai msg)
          w = (Return tt, w') ∧
        _pending (app w') = delete tsn (_pending (app w)) ∧
        futures w' = <[fut := FutResult args]> (futures w) ∧
        ∀ seq, stretch (await_future seq fut) w' = (Done (Return args), w').
Proof.
  intros Hcodec Hkey Hfut.
  pose proof (radio_recorded_table w sender lqi rssi) as Htable.
  unfold table in Htable. simplify_eq.
  eexists. split.
  - cbn [ezsp_callback_handler]. rewrite handle_frame_run, Hcodec.
    unfold _handle_reply, try_except_KeyError, set_result.
    rewrite (pop_and_complete_present _ tsn fut) by congruence. done.
  - cbn. split; [congruence|]. split; [congruence|].
    intros seq. rewrite await_future_stretch. cbn.
    rewrite list_lookup_insert_eq; [done|].
    apply lookup_lt_Some with FutPending. congruence.
Qed.

(** X11: a send-completion callback with a non-success status whose
    message tag has no entry in the table is only logged. *)
Theorem send_failure_for_unknown_tag_is_logged
    (w : World) (mt dest : Z) (aps_frame : ApsFrame)
    (tag status : Z) (msg : list Byte.byte) :
  status ≠ 0 →
  _pending (app w) !! tag = None →
  dispatch (messageSentHandler mt dest aps_frame tag status msg) w =
    (Return tt,
     {| app := app w; futures := futures w;
        trace := trace w ++ [Log WARNING "Unexpected message send failure"] |}).
Proof.
  intros Hstatus Hkey. cbn [ezsp_callback_handler].
  rewrite bool_decide_eq_true_2 by done.
  unfold _handle_frame_failure, try_except_KeyError, mbind, M_bind, bind.
  by rewrite (pending_pop_absent _ _ Hkey).
Qed.

End FrameProperties.

Lemma undecodable_frame_leaves_the_table_witness :
  sample_deserialize sample_frame [] = Raise (Exception "Frame too short" []) ∧
  ∃ w', ezsp_callback_handler (types := sample_types)
          sample_deserialize sample_deserialize
          (incomingMessageHandler 0 sample_frame 255 (-40) 7 0 0 [])
          sample_pending_world
          = (Raise (Exception "Frame too short" []), w') ∧
        _pending (app w') = _pending (app sample_pending_world).
Proof.
  split; [reflexivity|].
  destruct (undecodable_frame_leaves_the_table (types := sample_types)
              sample_deserialize sample_deserialize sample_pending_world
              0 sample_frame 255 (-40) 7 0 0 [] _ eq_refl)
    as (w' & Hrun & _ & Hpending & _).
  by exists w'.
Defined.

Lemma incoming_reply_reaches_the_requester_witness :
  sample_deserialize sample_frame [Byte.x05; Byte.x01; Byte.x01; Byte.x2a]
    = Return (5, 1, true, [42]) ∧
  _pending (app sample_pending_world) !! 5 = Some 0%nat ∧
  futures sample_pending_world !! 0%nat = Some FutPending ∧
  ∃ w', ezsp_callback_handler (types := sample_types)
          sample_deserialize sample_deserialize sample_reply
          sample_pending_world = (Return tt, w') ∧
        stretch (await_future 5 0) w' = (Done (Return [42]), w').
Proof.
  split; [reflexivity|]. split; [reflexivity|]. split; [reflexivity|].
  destruct (incoming_reply_reaches_the_requester (types := sample_types)
              sample_deserialize sample_deserialize sample_pending_world
              0 sample_frame 255 (-40) 7 0 0
              [Byte.x05; Byte.x01; Byte.x01; Byte.x2a] 5 1 [42] 0
              eq_refl eq_refl eq_refl)
    as (w' & Hrun & _ & _ & Hwake).
  exists w'. split; [exact Hrun|apply Hwake].
Defined.

Lemma send_failure_for_unknown_tag_is_logged_witness :
  1 ≠ 0 ∧ _pending (app __init__) !! 5 = None ∧
  ezsp_callback_handler (types := sample_types)
    sample_deserialize sample_deserialize
    (messageSentHandler 0 7 sample_frame 5 1 []) __init__
    = (Return tt,
       {| app := app __init__; futures := [];
          trace := [Log WARNING "Unexpected message send failure"] |}).
Proof.
  split; [lia|]. split; [reflexivity|].
  apply (send_failure_for_unknown_tag_is_logged (types := sample_types)
           sample_deserialize sample_deserialize __init__ 0 7 sample_frame
           5 1 []); [lia|reflexivity].
Defined.
